(** * SnapshillBot: URL normalisation, archive providers, notification
      assembly and the run cycle of [snapshill.py], embedded in Rocq.

    Python values are modelled as follows.
    - A [str] is a list of characters; a character is a code point below 256
      ([ascii]).  Integers are [Z].
    - A compiled regular expression is a term of [regex]; [ms] is the
      backtracking matcher of Python's [re] module: it lists every way the
      pattern can match at the current position, in the order the engine
      tries them, so the head of the list is the match Python reports.
    - Code that raises returns [Raise e]; code that talks to reddit, to the
      archive sites or to sqlite runs in the monad [M], which threads the
      [world] (the rows of the [links] table and the log of external calls).
      The answers of the external services are the fields of [external].
    - Calls to the [logging] module are not modelled. *)

From Stdlib Require Import String Ascii List Bool Arith ZArith Lia.
From Stdlib Require Import DecimalString.
Import ListNotations.

Set Implicit Arguments.

(** ** Strings *)

Definition str := list ascii.

Notation "$ s" := (list_ascii_of_string s%string)
  (at level 9, s at level 0, format "$ s").

Definition isnil {A} (l : list A) : bool :=
  match l with [] => true | _ => false end.

Definition str_eqb (a b : str) : bool :=
  if list_eq_dec ascii_dec a b then true else false.

(** [s.startswith(w)], returning what follows [w]. *)
Fixpoint strip_prefix (w s : str) : option str :=
  match w with
  | [] => Some s
  | c :: w' =>
      match s with
      | x :: s' => if Ascii.eqb x c then strip_prefix w' s' else None
      | [] => None
      end
  end.

Definition startswith (s w : str) : bool :=
  match strip_prefix w s with Some _ => true | None => false end.

Fixpoint join (sep : str) (l : list str) : str :=
  match l with
  | [] => []
  | [x] => x
  | x :: rest => x ++ sep ++ join sep rest
  end.

Definition in_range (lo hi c : ascii) : bool :=
  (nat_of_ascii lo <=? nat_of_ascii c) && (nat_of_ascii c <=? nat_of_ascii hi).

(** ** Regular expressions (the subset of [re] the program uses) *)

Module Re.

Inductive regex :=
| Lit (w : str)                                  (* literal characters *)
| Cls (p : ascii -> bool)                        (* [..], [^..] and . *)
| Cat (r1 r2 : regex)
| Alt (r1 r2 : regex)                            (* r1|r2 *)
| Opt (r : regex)                                (* r? (greedy) *)
| Rep (p : ascii -> bool) (lo : nat) (hi : option nat)
                                                 (* c{lo,hi}, c+ (greedy) *)
| Bol                                            (* ^ *)
| Eol.                                           (* $ *)

(** Greedy repetition of a one-character class: the longest run first. *)
Fixpoint rep (p : ascii -> bool) (lo : nat) (hi : option nat)
         (b : bool) (s : str) {struct s} : list (bool * str) :=
  let stop := match lo with 0 => [(b, s)] | S _ => [] end in
  match hi with
  | Some 0 => stop
  | _ =>
      match s with
      | c :: s' =>
          if p c
          then rep p (pred lo) (option_map pred hi) false s' ++ stop
          else stop
      | [] => stop
      end
  end.

(** [ms r b s]: the matches of [r] at the head of [s], most preferred
    first; [b] says whether this position is the start of the string.
    Each result is the flag and the text left after the match. *)
Fixpoint ms (r : regex) (b : bool) (s : str) : list (bool * str) :=
  match r with
  | Lit w =>
      match strip_prefix w s with
      | Some rest => [(b && isnil w, rest)]
      | None => []
      end
  | Cls p =>
      match s with
      | c :: s' => if p c then [(false, s')] else []
      | [] => []
      end
  | Cat r1 r2 => flat_map (fun x => ms r2 (fst x) (snd x)) (ms r1 b s)
  | Alt r1 r2 => ms r1 b s ++ ms r2 b s
  | Opt r1 => ms r1 b s ++ [(b, s)]
  | Rep p lo hi => rep p lo hi b s
  | Bol => if b then [(b, s)] else []
  | Eol =>
      match s with
      | [] => [(b, s)]
      | [c] => if Ascii.eqb c "010" then [(b, s)] else []
      | _ => []
      end
  end.

(** What [ms] computes, stated on the matched text: [mt r b m rest] says
    that [r] matches exactly the text [m] when [m] is followed by [rest]
    and [b] tells whether [m] begins the string. *)
Fixpoint mt (r : regex) (b : bool) (m rest : str) : Prop :=
  match r with
  | Lit w => m = w
  | Cls p => exists c, m = [c] /\ p c = true
  | Cat r1 r2 =>
      exists m1 m2, m = m1 ++ m2 /\ mt r1 b m1 (m2 ++ rest)
                    /\ mt r2 (b && isnil m1) m2 rest
  | Alt r1 r2 => mt r1 b m rest \/ mt r2 b m rest
  | Opt r1 => mt r1 b m rest \/ m = []
  | Rep p lo hi =>
      forallb p m = true /\ lo <= length m
      /\ match hi with Some h => length m <= h | None => True end
  | Bol => m = [] /\ b = true
  | Eol => m = [] /\ (rest = [] \/ rest = ["010"%char])
  end.

(** [re.match(r, s)]: the text after the match at position 0. *)
Definition re_match (r : regex) (s : str) : option str :=
  match ms r true s with
  | x :: _ => Some (snd x)
  | [] => None
  end.

Definition matches (r : regex) (s : str) : bool :=
  match re_match r s with Some _ => true | None => false end.

(** [r.search(s)] as a truth value: some position of [s] has a match. *)
Fixpoint search_from (r : regex) (b : bool) (s : str) : bool :=
  match ms r b s with
  | _ :: _ => true
  | [] =>
      match s with
      | [] => false
      | _ :: t => search_from r false t
      end
  end.

Definition re_search (r : regex) (s : str) : bool := search_from r true s.

(** Number of characters the preferred match at this position consumes. *)
Definition match_len (r : regex) (b : bool) (s : str) : option nat :=
  match ms r b s with
  | x :: _ => Some (length s - length (snd x))
  | [] => None
  end.

(** [re.sub(r, repl, s)] with a literal replacement: scan left to right,
    replace each match and resume after it.  [skip] counts the characters
    of the current match still to be dropped. *)
Fixpoint sub_from (r : regex) (repl : str) (skip : nat) (b : bool)
         (s : str) {struct s} : str :=
  match s with
  | [] =>
      match skip, match_len r b [] with
      | 0, Some _ => repl
      | _, _ => []
      end
  | c :: t =>
      match skip with
      | S k => sub_from r repl k false t
      | 0 =>
          match match_len r b s with
          | Some (S k) => repl ++ sub_from r repl k false t
          | Some 0 => repl ++ c :: sub_from r repl 0 false t
          | None => c :: sub_from r repl 0 false t
          end
      end
  end.

Definition re_sub (r : regex) (repl s : str) : str := sub_from r repl 0 true s.

(** [re.findall(r, s)] for a pattern without groups: the matched texts. *)
Fixpoint findall_from (r : regex) (skip : nat) (b : bool) (s : str)
         {struct s} : list str :=
  match s with
  | [] =>
      match skip, match_len r b [] with
      | 0, Some _ => [[]]
      | _, _ => []
      end
  | _ :: t =>
      match skip with
      | S k => findall_from r k false t
      | 0 =>
          match match_len r b s with
          | Some n => firstn n s :: findall_from r (pred n) false t
          | None => findall_from r 0 false t
          end
      end
  end.

Definition re_findall (r : regex) (s : str) : list str := findall_from r 0 true s.

(** [re.split(r, s)] for a pattern without groups whose matches are not
    empty: the pieces between the matches.  [cur] is the piece being read,
    last character first. *)
Fixpoint split_from (r : regex) (skip : nat) (b : bool) (cur : str) (s : str)
         {struct s} : list str :=
  match s with
  | [] => [rev cur]
  | c :: t =>
      match skip with
      | S k => split_from r k false cur t
      | 0 =>
          match match_len r b s with
          | Some (S k) => rev cur :: split_from r k false [] t
          | _ => split_from r 0 false (c :: cur) t
          end
      end
  end.

Definition re_split (r : regex) (s : str) : list str := split_from r 0 true [] s.

Definition chr (c : ascii) : regex := Lit [c].
Definition plus (p : ascii -> bool) : regex := Rep p 1 None.
Definition exactly (n : nat) (p : ascii -> bool) : regex := Rep p n (Some n).

End Re.
Import Re.

Infix "@@" := Cat (at level 61, right associativity).
Infix "<|>" := Alt (at level 62, right associativity).

(** ** Module constants *)

Definition INFO : str := $"/r/SnapshillBot".
Definition CONTACT : str := $"/message/compose?to=\/r\/SnapshillBot".
Definition LEN_MAX : nat := 35.

Definition A_to_z : ascii -> bool := in_range "A" "z".
Definition not_slash (c : ascii) : bool := negb (Ascii.eqb c "/").

(** "https?://(([A-z]{2})(-[A-z]{2})?|beta|i|m|pay|ssl|www)\.?reddit\.com" *)
Definition REDDIT_PATTERN : regex :=
  Lit $"http" @@ Opt (chr "s") @@ Lit $"://" @@
  ((exactly 2 A_to_z @@ Opt (chr "-" @@ exactly 2 A_to_z))
   <|> Lit $"beta" <|> Lit $"i" <|> Lit $"m" <|> Lit $"pay"
   <|> Lit $"ssl" <|> Lit $"www") @@
  Opt (chr ".") @@ Lit $"reddit" @@ chr "." @@ Lit $"com".

Definition u_user_r : regex := Lit $"u" <|> Lit $"user" <|> Lit $"r".

(** "/(u|user|r)/[^\/]+/?$" *)
Definition SUBREDDIT_OR_USER : regex :=
  chr "/" @@ u_user_r @@ chr "/" @@ plus not_slash @@ Opt (chr "/") @@ Eol.

(** "^/?(u|user|r)/[^\/]+/?$" *)
Definition PLAIN_SUBREDDIT_OR_USER : regex :=
  Bol @@ Opt (chr "/") @@ u_user_r @@ chr "/" @@ plus not_slash @@
  Opt (chr "/") @@ Eol.

Definition WWW_REDDIT : str := $"http://www.reddit.com".

(** ** URL normalisation and filtering *)

Definition fix_url (url : str) : str :=
  let url :=
    if matches PLAIN_SUBREDDIT_OR_USER url
    then $"http://www.reddit.com/" ++ url
    else url in
  re_sub REDDIT_PATTERN WWW_REDDIT url.

Definition skip_url (url : str) : bool :=
  if matches REDDIT_PATTERN url && re_search SUBREDDIT_OR_USER url
  then true
  else false.

(** ** Exceptions, external services and the effect monad *)

Inductive exn :=
| APIException                  (* praw.errors.APIException or a subclass *)
| ClientException               (* praw.errors.ClientException or a subclass *)
| HTTPException                 (* praw.errors.HTTPException or a subclass *)
| NameError (name : string)
| TypeError (what : string)
| AttributeError (what : string)
| PyException (msg : string)    (* raise Exception(msg) *)
| OtherError (what : string).   (* anything else a library raises *)

Definition RECOVERABLE_EXC (e : exn) : bool :=
  match e with
  | APIException | ClientException | HTTPException => true
  | _ => false
  end.

Inductive result (A : Type) :=
| Ok (a : A)
| Raise (e : exn).
Arguments Ok {A} a.
Arguments Raise {A} e.

Record Response := { res_text : str; res_url : str }.

Record Submission := {
  name : str;
  permalink : str;
  url : str;
  is_self : bool;
  selftext_html : option str
}.

Record Comment := { comment_name : str }.

(** The calls that leave the process, in the order they are made. *)
Inductive event :=
| EvGet (u : str)                                (* s.get(u) *)
| EvPost (u : str) (pairs : list (str * str))    (* s.post(u, pairs) *)
| EvGetNew (limit : Z)                           (* r.get_new(limit=..) *)
| EvSubmit (subreddit title text : str)          (* r.submit(..) *)
| EvAddComment (thing text : str)                (* <thing>.add_comment(text) *)
| EvGetSubreddit (sr : str)                      (* r.get_subreddit(sr) *)
| EvWikiPage (sr page : str)                     (* get_wiki_page(page).content_md *)
| EvSelect (id : str)                            (* SELECT * FROM links WHERE id=? *)
| EvInsert (id reply : str)                      (* INSERT INTO links (id, reply) *)
| EvCommit.                                      (* db.commit() *)

(** Archival work on behalf of an item: a request to an archive site, a new
    submission or a comment. *)
Definition is_archival (ev : event) : bool :=
  match ev with
  | EvGet _ | EvPost _ _ | EvSubmit _ _ _ | EvAddComment _ _ => true
  | _ => false
  end.

(** What the services outside the process answer. *)
Record external := {
  http_get : str -> result Response;
  http_post : str -> list (str * str) -> result Response;
  utc_stamp : str;       (* time.strftime(ARCHIVE_ORG_FORMAT, time.gmtime()) *)
  reddit_get_new : Z -> result (list Submission);
  reddit_submit : str -> str -> str -> result Submission;
  reddit_add_comment : str -> str -> result Comment;
  reddit_get_subreddit : str -> result unit;
  wiki_content_md : str -> str -> result str
}.

(** The [links] table and the log of external calls. *)
Record world := { links : list (str * str); log : list event }.

Definition M (A : Type) : Type := world -> result A * world.

Definition ret {A} (a : A) : M A := fun w => (Ok a, w).

Definition raise {A} (e : exn) : M A := fun w => (Raise e, w).

Definition bind {A B} (m : M A) (k : A -> M B) : M B :=
  fun w =>
    match m w with
    | (Ok a, w') => k a w'
    | (Raise e, w') => (Raise e, w')
    end.

Notation "x <- m ;; k" := (bind m (fun x => k))
  (at level 100, m at next level, right associativity).
Notation "m1 ;;; m2" := (bind m1 (fun _ => m2))
  (at level 100, right associativity).

(** Make an external call: log it, then continue with its answer. *)
Definition call {A} (ev : event) (answer : result A) : M A :=
  fun w =>
    (answer, {| links := links w; log := log w ++ [ev] |}).

(** [try: m  except RECOVERABLE_EXC as e: ...]: a recoverable exception of
    [m] is handed to the caller as [inr e]; any other propagates. *)
Definition catch_recoverable {A} (m : M A) : M (A + exn) :=
  fun w =>
    match m w with
    | (Ok a, w') => (Ok (inl a), w')
    | (Raise e, w') =>
        if RECOVERABLE_EXC e then (Ok (inr e), w') else (Raise e, w')
    end.

Fixpoint for_each {A} (l : list A) (body : A -> M unit) : M unit :=
  match l with
  | [] => ret tt
  | x :: rest => body x ;;; for_each rest body
  end.

(** ** Archives *)

(** A Python value that is [None], [False] or a string. *)
Inductive pyval :=
| PyNone
| PyFalse
| PyStr (s : str).

Definition truthy (v : pyval) : bool :=
  match v with
  | PyStr (_ :: _) => true
  | _ => false
  end.

Inductive site := ArchiveIs | ArchiveOrg | MegalodonJP | Goldfish.

Definition site_name (k : site) : str :=
  match k with
  | ArchiveIs => $"archive.is"
  | ArchiveOrg => $"archive.org"
  | MegalodonJP => $"megalodon.jp"
  | Goldfish => $"snew.github.io"
  end.

Record Archive := { kind : site; a_url : str; archived : pyval }.

(** [Archive.__init__] *)
Definition Archive_init (k : site) (u : str) : Archive :=
  {| kind := k; a_url := u; archived := PyNone |}.

Definition ERROR_MESSAGE : str := $"could not auto-archive; click to resubmit!".

(** [Archive.name()] *)
Definition Archive_name (a : Archive) : str :=
  if truthy (archived a) then site_name (kind a)
  else $"_" ++ site_name (kind a) ++ $"\*_".

(** [Archive.resubmit_link()]: no subclass overrides it, so it is [None],
    which [format] prints as "None". *)
Definition Archive_resubmit_link (a : Archive) : str := $"None".

(** [Archive.error_message()] *)
Definition Archive_error_message (a : Archive) : str :=
  Archive_resubmit_link a ++ $" " ++ ["034"%char] ++ ERROR_MESSAGE ++ ["034"%char].

(** [Archive.link()] *)
Definition Archive_link (a : Archive) : str :=
  match archived a with
  | PyStr (c :: s) => c :: s
  | _ => Archive_error_message a
  end.

(** [Archive.format()] *)
Definition Archive_format (a : Archive) : str :=
  $"[" ++ Archive_name a ++ $"](" ++ Archive_link a ++ $")".

Definition zero_to_z : ascii -> bool := in_range "0" "z".
Definition not_newline (c : ascii) : bool := negb (Ascii.eqb c "010").

(** "http[s]?://archive.is/[0-z]{1,6}": the dot is not escaped. *)
Definition ARCHIVE_IS_LINK : regex :=
  Lit $"http" @@ Opt (chr "s") @@ Lit $"://archive" @@ Cls not_newline @@
  Lit $"is/" @@ Rep zero_to_z 1 (Some 6).

Definition MEGALODON_DECIDE : str := $"http://megalodon.jp/pc/get_simple/decide".

Section Program.

Variable ext : external.

Definition s_get (u : str) : M Response := call (EvGet u) (http_get ext u).

Definition s_post (u : str) (pairs : list (str * str)) : M Response :=
  call (EvPost u pairs) (http_post ext u pairs).

(** The [archive()] method of each subclass. *)
Definition archive (a : Archive) : M pyval :=
  match kind a with
  | ArchiveIs =>
      r <- catch_recoverable
             (s_post $"https://archive.is/submit/" [($"url", a_url a)]) ;;
      match r with
      | inr _ => ret PyFalse
      | inl res =>
          match re_findall ARCHIVE_IS_LINK (res_text res) with
          | [] => ret PyFalse
          | found0 :: _ => ret (PyStr found0)
          end
      end
  | ArchiveOrg =>
      r <- catch_recoverable (s_get ($"https://web.archive.org/save/" ++ a_url a)) ;;
      match r with
      | inr e =>
          (* the handler's test [isinstance(e, HTTPError) and ...] reads the
             name HTTPError, which the module neither imports nor defines *)
          raise (NameError "HTTPError")
      | inl _ =>
          ret (PyStr ($"https://web.archive.org/" ++ utc_stamp ext ++ $"/" ++ a_url a))
      end
  | MegalodonJP =>
      r <- catch_recoverable (s_post MEGALODON_DECIDE [($"url", a_url a)]) ;;
      match r with
      | inr _ => ret PyFalse
      | inl res =>
          if str_eqb (res_url res) MEGALODON_DECIDE then ret PyFalse
          else ret (PyStr (res_url res))
      end
  | Goldfish =>
      ret (PyStr (re_sub REDDIT_PATTERN $"https://snew.github.io" (a_url a)))
  end.

(** ** Links *)

Record Link := { l_url : str; l_text : str; archives : list Archive }.

(** [Link.__init__] *)
Definition Link_init (u text : str) : Link :=
  {| l_url := u;
     l_text := if LEN_MAX <? length text
               then firstn LEN_MAX text ++ $"..." else text;
     archives :=
       [Archive_init ArchiveOrg u; Archive_init MegalodonJP u]
       ++ (if matches REDDIT_PATTERN u then [Archive_init Goldfish u] else [])
       ++ [Archive_init ArchiveIs u] |}.

Definition is_none (v : pyval) : bool :=
  match v with PyNone => true | _ => false end.

Definition decimal (n : nat) : str :=
  list_ascii_of_string (NilZero.string_of_uint (Nat.to_uint n)).

(** [Link.format(no)] *)
Definition Link_format (l : Link) (no : nat) : str :=
  let shown := filter (fun a => negb (is_none (archived a))) (archives l) in
  decimal no ++ $". [" ++ l_text l ++ $"](" ++ l_url l ++ $") - "
    ++ join $", " (map Archive_format shown).

(** ** Posts *)

Record Post := { submission : Submission; post_links : list Link }.

Definition Post_name (p : Post) : str := name (submission p).
Definition Post_permalink (p : Post) : str := permalink (submission p).

Definition has_row (id : str) (rows : list (str * str)) : bool :=
  existsb (fun row => str_eqb (fst row) id) rows.

(** [Post.should_notify()]: [cur.fetchone()] is a row or [None]. *)
Definition should_notify (p : Post) : M bool :=
  fun w =>
    let w' := {| links := links w; log := log w ++ [EvSelect (Post_name p)] |} in
    if has_row (Post_name p) (links w) then (Ok false, w') else (Ok true, w').

(** [submission.add_comment(text)] of praw. *)
Definition praw_add_comment (thing : Submission) (text : str) : M Comment :=
  call (EvAddComment (name thing) text) (reddit_add_comment ext (name thing) text).

(** [Post.add_comment]: the body has no [return], so the caller gets [None]. *)
Definition Post_add_comment (p : Post) (text : str) : M (option Comment) :=
  praw_add_comment (submission p) text ;;;
  ret None.

(** ** Headers *)

Record Header := { subreddit : str; texts : list str }.

Definition is_space (c : ascii) : bool :=
  let n := nat_of_ascii c in
  ((9 <=? n) && (n <=? 13)) || ((28 <=? n) && (n <=? 32))
  || (n =? 133) || (n =? 160).

Fixpoint lstrip (s : str) : str :=
  match s with
  | c :: t => if is_space c then lstrip t else s
  | [] => []
  end.

(** [s.strip()] *)
Definition strip (s : str) : str := rev (lstrip (rev (lstrip s))).

Definition lower_char (c : ascii) : ascii :=
  let n := nat_of_ascii c in
  if ((65 <=? n) && (n <=? 90))
     || ((192 <=? n) && (n <=? 222) && negb (n =? 215))
  then ascii_of_nat (n + 32) else c.

(** [s.lower()] *)
Definition lower (s : str) : str := map lower_char s.

Definition CRLF : str := ["013"; "010"]%char.

(** '\r\n-{3,}\r\n' *)
Definition QUOTE_SEPARATOR : regex :=
  Lit CRLF @@ Rep (Ascii.eqb "-") 3 None @@ Lit CRLF.

(** [Header._parse_quotes] *)
Definition _parse_quotes (quotes_str : str) : list str :=
  map strip
    (filter (fun q => negb (isnil (strip q)))
       (re_split QUOTE_SEPARATOR quotes_str)).

(** [Header._get_wiki_content] *)
Definition _get_wiki_content (settings_wiki sr : str) : M str :=
  let page := $"extxt/" ++ lower sr in
  call (EvWikiPage settings_wiki page) (wiki_content_md ext settings_wiki page).

(** [Header.__init__] *)
Definition Header_init (settings_wiki sr : str) : M Header :=
  call (EvGetSubreddit settings_wiki) (reddit_get_subreddit ext settings_wiki) ;;;
  r <- catch_recoverable (_get_wiki_content settings_wiki sr) ;;
  match r with
  | inl content =>
      if negb (startswith content $"!ignore")
      then ret {| subreddit := sr; texts := _parse_quotes content |}
      else ret {| subreddit := sr; texts := [] |}
  | inr _ => ret {| subreddit := sr; texts := [] |}
  end.

(** [random.choice(seq)]: [draw] is the number the generator produces; the
    element chosen is the one at index [draw mod len(seq)]. *)
Definition random_choice (draw : nat) (seq : list str) : str :=
  nth (draw mod length seq) seq [].

(** [Header.get()] *)
Definition Header_get (h : Header) (draw : nat) : str :=
  if isnil (texts h) then [] else random_choice draw (texts h).

(** ** Notifications *)

Definition get_footer : str :=
  $"*^(I am a bot.) ^\([*Info*](" ++ INFO ++ $") ^/ ^[*Contact*]("
   ++ CONTACT ++ $"))*".

Record Notification := { post : Post; header : Header; n_links : list Link }.

Definition NL2 : str := ["010"; "010"]%char.

(** What [format] prints for the bound method [archive.name] (the text
    names the class and the address of the object). *)
Variable bound_method_repr : Archive -> str.

(** [archive.error_link + ' "could not auto-archive; click to resubmit
    it!"'] in [_build]: [error_link] is a method and is not called, so the
    sum of a method and a string raises; [GoldfishArchive] has no such
    attribute at all. *)
Definition error_link_and_hint (a : Archive) : result str :=
  match kind a with
  | Goldfish => Raise (AttributeError "error_link")
  | _ => Raise (TypeError "unsupported operand type(s) for +: 'method' and 'str'")
  end.

(** The inner loop of [_build] over [link.archives]. *)
Fixpoint build_subparts (l : list Archive) : result (list str) :=
  match l with
  | [] => Ok []
  | a :: rest =>
      if is_none (archived a) then build_subparts rest
      else
        match (match archived a with
               | PyStr (c :: u) => Ok (c :: u)
               | _ => error_link_and_hint a
               end) with
        | Raise e => Raise e
        | Ok archive_link =>
            match build_subparts rest with
            | Raise e => Raise e
            | Ok more =>
                Ok (($"[" ++ bound_method_repr a ++ $"](" ++ archive_link ++ $")")
                      :: more)
            end
        end
  end.

(** The outer loop of [_build] over [enumerate(self.links, 1)]. *)
Fixpoint build_lines (i : nat) (l : list Link) : result (list str) :=
  match l with
  | [] => Ok []
  | link :: rest =>
      match build_subparts (archives link) with
      | Raise e => Raise e
      | Ok subparts =>
          match build_lines (S i) rest with
          | Raise e => Raise e
          | Ok more =>
              Ok ((decimal i ++ $". " ++ l_text link ++ $" - "
                     ++ join $", " subparts) :: more)
          end
      end
  end.

(** [Notification._build] *)
Definition _build (self : Notification) (draw : nat) : result str :=
  match build_lines 1 (n_links self) with
  | Raise e => Raise e
  | Ok lines =>
      Ok (join NL2
            ([Header_get (header self) draw; $"Snapshots:"] ++ lines
             ++ [get_footer]))
  end.

Definition lift {A} (r : result A) : M A := fun w => (r, w).

(** [r.submit(subreddit, title, text=.., raise_captcha_exception=True)] *)
Definition r_submit (sr title text : str) : M Submission :=
  call (EvSubmit sr title text) (reddit_submit ext sr title text).

(** [cur.execute("INSERT INTO links (id, reply) VALUES (?, ?)", ..)] *)
Definition insert_link (id reply : str) : M unit :=
  fun w =>
    (Ok tt, {| links := links w ++ [(id, reply)];
               log := log w ++ [EvInsert id reply] |}).

(** [comment.name] *)
Definition attr_name (comment : option Comment) : M str :=
  match comment with
  | Some c => ret (comment_name c)
  | None => raise (AttributeError "'NoneType' object has no attribute 'name'")
  end.

(** [Notification.notify] *)
Definition notify (self : Notification) (draw : nat) : M unit :=
  r <- catch_recoverable
         (comment <- lift (_build self draw) ;;
          if (9999 <? Z.of_nat (length comment))%Z then
            let link := Post_permalink (post self) in
            submission <- r_submit $"SnapshillBotEx" ($"Archives for " ++ link)
                            (firstn (Z.to_nat 39999) comment) ;;
            praw_add_comment submission
              ($"The original submission can be found here:" ++ NL2 ++ link) ;;;
            Post_add_comment (post self)
              ($"Wow, that's a lot of links! The snapshots can be [found here.]("
               ++ url submission ++ $")" ++ NL2 ++ get_footer)
          else
            Post_add_comment (post self) comment) ;;
  match r with
  | inr e => ret tt
  | inl comment =>
      reply <- attr_name comment ;;
      insert_link (Post_name (post self)) reply
  end.

(** ** The run cycle *)

Record Snapshill := {
  username : str;
  password : str;
  limit : Z;
  settings_wiki : str;
  headers : list (str * Header);
  _setup : bool
}.

(** [Snapshill.run].  The body of the loop opens with the expression
    statement [submis] (line 403); no scope binds that name, so the first
    fetched submission raises NameError and the statements after it
    (lines 405 to 444) are not reached. *)
Definition run (self : Snapshill) : M unit :=
  if negb (_setup self) then raise (PyException "Snapshiller not ready yet!")
  else
    raw_subs <- call (EvGetNew (limit self)) (reddit_get_new ext (limit self)) ;;
    for_each raw_subs (fun raw_sub => raise (NameError "submis")).

End Program.

(** *** The link loop of [run] (lines 424 to 436) *)

(** An [a] element as the loop reads it: its [href] attribute, which
    [anchor['href']] looks up, and its children, [anchor.contents]. *)
Record Anchor := { href : option str; contents : list str }.

Section LinkLoop.

(** The elements of the list [archives]. *)
Variable Container : Type.

(** [for anchor in links: ...] with the lists [archives] and
    [finishedURLs].  An anchor without [href] raises KeyError.  For a link
    that is neither skipped nor finished, the call
    [ArchiveContainer(url, anchor.contents[0])] first evaluates the name
    ArchiveContainer, which the module binds nowhere: NameError, so the two
    [append] after it are never reached. *)
Fixpoint collect_links (anchors : list Anchor) (archives : list Container)
         (finishedURLs : list str) : result (list Container * list str) :=
  match anchors with
  | [] => Ok (archives, finishedURLs)
  | anchor :: rest =>
      match href anchor with
      | None => Raise (OtherError "KeyError: 'href'")
      | Some h =>
          let url := fix_url h in
          if skip_url url then collect_links rest archives finishedURLs
          else if existsb (str_eqb url) finishedURLs
          then collect_links rest archives finishedURLs
          else Raise (NameError "ArchiveContainer")
      end
  end.

End LinkLoop.

(** ** Worlds and values used in the examples *)

Definition no_response : Response := {| res_text := []; res_url := [] |}.

Definition new_submission : Submission :=
  {| name := $"t3_ex1"; permalink := $"http://www.reddit.com/r/SnapshillBotEx/comments/ex1/";
     url := $"http://www.reddit.com/r/SnapshillBotEx/comments/ex1/";
     is_self := true; selftext_html := None |}.

(** Every service answers. *)
Definition ext_up : external :=
  {| http_get := fun _ => Ok no_response;
     http_post := fun _ _ => Ok no_response;
     utc_stamp := $"20150101000000";
     reddit_get_new := fun _ => Ok [];
     reddit_submit := fun _ _ _ => Ok new_submission;
     reddit_add_comment := fun _ _ => Ok {| comment_name := $"t1_re1" |};
     reddit_get_subreddit := fun _ => Ok tt;
     wiki_content_md := fun _ _ => Ok [] |}.

(** Every request fails with praw's HTTPException. *)
Definition ext_down : external :=
  {| http_get := fun _ => Raise HTTPException;
     http_post := fun _ _ => Raise HTTPException;
     utc_stamp := $"20150101000000";
     reddit_get_new := fun _ => Raise HTTPException;
     reddit_submit := fun _ _ _ => Raise HTTPException;
     reddit_add_comment := fun _ _ => Raise HTTPException;
     reddit_get_subreddit := fun _ => Ok tt;
     wiki_content_md := fun _ _ => Raise HTTPException |}.

Definition empty_world : world := {| links := []; log := [] |}.

Definition example_post : Post :=
  {| submission := {| name := $"t3_abc"; permalink := $"http://www.reddit.com/r/test/comments/abc/";
                      url := $"http://example.com/"; is_self := false;
                      selftext_html := None |};
     post_links := [] |}.

Definition example_repr (a : Archive) : str := $"<bound method Archive.name>".

Definition failed_link : Link :=
  {| l_url := $"http://example.com/"; l_text := $"Example";
     archives := [ {| kind := ArchiveIs; a_url := $"http://example.com/";
                      archived := PyFalse |} ] |}.

Definition no_header : Header := {| subreddit := $"all"; texts := [] |}.

Definition example_anchor (h : string) : Anchor :=
  {| href := Some (list_ascii_of_string h); contents := [ $"link" ] |}.

(** A header of 10000 characters, so that the notification overflows. *)
Definition long_header : Header :=
  {| subreddit := $"all"; texts := [repeat "a"%char (Z.to_nat 10000)] |}.

Definition long_notification : Notification :=
  {| post := example_post; header := long_header; n_links := [] |}.

Definition long_comment : str :=
  join NL2 [repeat "a"%char (Z.to_nat 10000); $"Snapshots:"; get_footer].

Definition recorded_world : world :=
  {| links := [($"t3_abc", $"t1_old")]; log := [] |}.

Definition ready : Snapshill :=
  {| username := $"bot"; password := $"secret"; limit := 25;
     settings_wiki := $"SnapshillBot"; headers := []; _setup := true |}.

Definition ext_one_item : external :=
  {| http_get := http_get ext_up;
     http_post := http_post ext_up;
     utc_stamp := utc_stamp ext_up;
     reddit_get_new := fun _ => Ok [submission example_post];
     reddit_submit := reddit_submit ext_up;
     reddit_add_comment := reddit_add_comment ext_up;
     reddit_get_subreddit := reddit_get_subreddit ext_up;
     wiki_content_md := wiki_content_md ext_up |}.



(** ** Notions used in the proofs *)

(** No [^] and no [$] in the pattern. *)
Fixpoint anchor_free (r : regex) : bool :=
  match r with
  | Lit _ | Cls _ | Rep _ _ _ => true
  | Cat r1 r2 | Alt r1 r2 => anchor_free r1 && anchor_free r2
  | Opt r1 => anchor_free r1
  | Bol | Eol => false
  end.

(** One of the two strings is a prefix of the other. *)
Fixpoint compatb (a b : str) : bool :=
  match a, b with
  | x :: a', y :: b' => Ascii.eqb x y && compatb a' b'
  | _, _ => true
  end.

(** No suffix of [m] starts like [http://www.reddit.com]. *)
Fixpoint clash_all (m : str) : Prop :=
  match m with
  | [] => True
  | c :: m' => compatb (c :: m') WWW_REDDIT = false /\ clash_all m'
  end.

(** Two slashes in a row somewhere in the string. *)
Fixpoint dslash (s : str) : bool :=
  match s with
  | c :: t =>
      (Ascii.eqb c "/" && match t with d :: _ => Ascii.eqb d "/" | [] => false end)
      || dslash t
  | [] => false
  end.

(** [re.sub(REDDIT_PATTERN, "http://www.reddit.com", s)] past position 0. *)
Definition sub (s : str) : str := sub_from REDDIT_PATTERN WWW_REDDIT 0 false s.

(** ** Shapes of URLs *)

(** A text of the form [/kind/name], [kind] one of u, user and r, [name]
    free of slashes, with an optional final slash and an optional final
    newline. *)
Definition bare_mention (t : str) : Prop :=
  exists kind x slash nl,
    t = "/"%char :: kind ++ "/"%char :: x ++ slash ++ nl
    /\ (kind = $"u" \/ kind = $"user" \/ kind = $"r")
    /\ forallb not_slash x = true /\ 1 <= length x
    /\ (slash = [] \/ slash = $"/")
    /\ (nl = [] \/ nl = ["010"%char]).

(** [m] occurs in [u] as a text the reddit pattern matches. *)
Definition reddit_match_in (u m : str) : Prop :=
  exists a rest, u = a ++ m ++ rest /\ mt REDDIT_PATTERN false m rest.

(** ** Rendering conditions *)

(** The attempts [_build] can render: never run ([None]) or archived to a
    non-empty URL. *)
Definition renderable (a : Archive) : bool :=
  match archived a with
  | PyNone | PyStr (_ :: _) => true
  | PyFalse | PyStr [] => false
  end.

(** ** Headers of a [Snapshill] *)

(** [d[key]] and [d.get(key)] on the [headers] dictionary. *)
Fixpoint dict_get (key : str) (d : list (str * Header)) : option Header :=
  match d with
  | [] => None
  | (k, h) :: rest => if str_eqb k key then Some h else dict_get key rest
  end.

(** [Header.__len__] *)
Definition Header_len (h : Header) : nat := length (texts h).

(** [Snapshill._get_header]; [display_name] is
    [subreddit.display_name].  A missing "all" key raises KeyError. *)
Definition _get_header (self : Snapshill) (display_name : str) : result Header :=
  match dict_get $"all" (headers self) with
  | None => Raise (OtherError "KeyError: 'all'")
  | Some all =>
      if negb (Header_len all =? 0) then Ok all
      else Ok (match dict_get (lower display_name) (headers self) with
               | Some h => h
               | None => all
               end)
  end.

(** [Snapshill.refresh_headers] *)
Definition refresh_headers (ext : external) (self : Snapshill) : M Snapshill :=
  all <- Header_init ext (settings_wiki self) $"all" ;;
  ret {| username := username self; password := password self;
         limit := limit self; settings_wiki := settings_wiki self;
         headers := [($"all", all)]; _setup := _setup self |}.

(** [Snapshill.quit] *)
Definition quit (self : Snapshill) : Snapshill :=
  {| username := username self; password := password self;
     limit := limit self; settings_wiki := settings_wiki self;
     headers := []; _setup := false |}.

(** A wiki page with two quotes, blank pieces and padding. *)
Definition sample_quotes : str :=
  $"  first quote " ++ CRLF ++ $"---" ++ CRLF ++ $"   " ++ CRLF ++ $"-----"
   ++ CRLF ++ $"second" ++ CRLF.

Definition ext_quotes : external :=
  {| http_get := http_get ext_up;
     http_post := http_post ext_up;
     utc_stamp := utc_stamp ext_up;
     reddit_get_new := reddit_get_new ext_up;
     reddit_submit := reddit_submit ext_up;
     reddit_add_comment := reddit_add_comment ext_up;
     reddit_get_subreddit := reddit_get_subreddit ext_up;
     wiki_content_md := fun _ _ => Ok sample_quotes |}.

Definition short_notification : Notification :=
  {| post := example_post; header := no_header; n_links := [] |}.

Definition failed_notification : Notification :=
  {| post := example_post; header := no_header; n_links := [failed_link] |}.

(** The [Snapshill] that [refresh_headers] yields on [sample_quotes]. *)
Definition sample_refreshed : Snapshill :=
  {| username := username ready; password := password ready;
     limit := limit ready; settings_wiki := settings_wiki ready;
     headers := [($"all", {| subreddit := $"all";
                             texts := [ $"first quote"; $"second" ] |})];
     _setup := _setup ready |}.

(** * Properties *)

(** ** The matcher against its specification *)

Lemma strip_prefix_spec (w s rest : str) :
  strip_prefix w s = Some rest <-> s = w ++ rest.
Proof.
  revert s. induction w as [|c w IH]; intros s; simpl.
  - split; congruence.
  - destruct s as [|x s].
    + split; discriminate.
    + destruct (Ascii.eqb_spec x c) as [-> | Hne].
      * rewrite IH. split; congruence.
      * split; [discriminate | congruence].
Qed.

Lemma strip_prefix_app (w rest : str) : strip_prefix w (w ++ rest) = Some rest.
Proof. now apply strip_prefix_spec. Qed.

Lemma isnil_app {A} (a b : list A) : isnil (a ++ b) = isnil a && isnil b.
Proof. destruct a; reflexivity. Qed.

Lemma rep_spec (p : ascii -> bool) (s : str) :
  forall lo hi b b' rest,
    In (b', rest) (rep p lo hi b s) <->
    exists m, s = m ++ rest /\ mt (Rep p lo hi) b m rest /\ b' = b && isnil m.
Proof.
  assert (Hstop : forall (lo : nat) (b : bool) (s0 : str) b' rest,
             In (b', rest) (match lo with 0 => [(b, s0)] | S _ => [] end) <->
             lo = 0 /\ b' = b /\ rest = s0).
  { intros [|lo] b s0 b' rest; simpl.
    - split; [intros [H|[]]; inversion H; auto | intros (_ & -> & ->); auto].
    - split; [intros [] | intros (H & _); discriminate]. }
  assert (Hnil : forall (lo : nat) hi (b : bool) (s0 : str) (b' : bool) (rest : str),
             (lo = 0 /\ b' = b /\ rest = s0) ->
             exists m, s0 = m ++ rest /\ mt (Rep p lo hi) b m rest
                       /\ b' = b && isnil m).
  { intros lo hi b s0 b' rest (-> & -> & ->). exists []. simpl.
    rewrite andb_true_r. repeat split; auto. destruct hi; auto with arith. }
  induction s as [|c s IH]; intros lo hi b b' rest.
  - assert (E : rep p lo hi b [] = match lo with 0 => [(b, [])] | S _ => [] end)
      by (destruct hi as [[|h]|]; reflexivity).
    rewrite E, Hstop. split; [apply Hnil|].
    intros (m & Hs & (_ & Hlo & _) & Hb).
    destruct m; [|discriminate]. simpl in *. subst.
    rewrite andb_true_r. repeat split; auto. lia.
  - destruct (Nat.eq_dec (match hi with Some h => h | None => 1 end) 0) as [Hz|Hnz].
    + destruct hi as [[|h]|]; try discriminate.
      change (rep p lo (Some 0) b (c :: s))
        with (match lo with 0 => [(b, c :: s)] | S _ => [] end).
      rewrite Hstop. split; [apply Hnil|].
      intros (m & Hs & (_ & Hlo & Hhi) & Hb).
      destruct m; [|simpl in Hhi; lia]. simpl in *. subst.
      rewrite andb_true_r. repeat split; auto. lia.
    + assert (E : rep p lo hi b (c :: s) =
                  if p c
                  then rep p (pred lo) (option_map pred hi) false s
                         ++ match lo with 0 => [(b, c :: s)] | S _ => [] end
                  else match lo with 0 => [(b, c :: s)] | S _ => [] end).
      { destruct hi as [[|h]|]; try reflexivity. now contradiction Hnz. }
      rewrite E. clear E. destruct (p c) eqn:Hp.
      * rewrite in_app_iff, IH, Hstop. split.
        -- intros [(m & -> & (Hall & Hlo & Hhi) & ->) | H]; [|now apply Hnil].
           exists (c :: m). simpl. rewrite Hp, Hall, andb_false_r.
           repeat split; auto; [lia|].
           destruct hi as [h|]; simpl in *; auto. lia.
        -- intros (m & Hs & (Hall & Hlo & Hhi) & ->).
           destruct m as [|x m]; simpl in *.
           ++ right. subst. rewrite andb_true_r. repeat split; auto. lia.
           ++ left. inversion Hs; subst. exists m.
              apply andb_prop in Hall as [_ Hall]. rewrite andb_false_r.
              repeat split; auto; [lia|].
              destruct hi as [h|]; simpl in *; auto. lia.
      * rewrite Hstop. split; [apply Hnil|].
        intros (m & Hs & (Hall & Hlo & Hhi) & ->).
        destruct m as [|x m]; simpl in *.
        -- subst. rewrite andb_true_r. repeat split; auto. lia.
        -- inversion Hs; subst. rewrite Hp in Hall. discriminate.
Qed.

(** The matcher lists exactly the matches of the pattern. *)
Theorem ms_spec (r : regex) :
  forall b s b' rest,
    In (b', rest) (ms r b s) <->
    exists m, s = m ++ rest /\ mt r b m rest /\ b' = b && isnil m.
Proof.
  induction r as [w|p|r1 IH1 r2 IH2|r1 IH1 r2 IH2|r1 IH1|p lo hi| |];
    intros b s b' rest.
  - simpl. destruct (strip_prefix w s) as [rest0|] eqn:E.
    + apply strip_prefix_spec in E. subst. split.
      * intros [H|[]]. inversion H; subst. exists w. auto.
      * intros (m & Hs & -> & ->). apply app_inv_head in Hs. subst. now left.
    + split; [intros []|].
      intros (m & Hs & -> & _). subst.
      rewrite strip_prefix_app in E. discriminate.
  - simpl. destruct s as [|c s].
    + split; [intros []|]. intros (m & Hs & (c & -> & _) & _). discriminate.
    + destruct (p c) eqn:Hp.
      * split.
        -- intros [H|[]]. inversion H; subst. exists [c].
           rewrite andb_false_r. repeat split; eauto.
        -- intros (m & Hs & (x & -> & _) & ->). inversion Hs; subst.
           rewrite andb_false_r. now left.
      * split; [intros []|].
        intros (m & Hs & (x & -> & Hx) & _). inversion Hs; subst. congruence.
  - simpl. rewrite in_flat_map. split.
    + intros ([b1 s1] & H1 & H2). simpl in H2.
      apply IH1 in H1 as (m1 & -> & Hm1 & ->).
      apply IH2 in H2 as (m2 & -> & Hm2 & ->).
      exists (m1 ++ m2). rewrite <- app_assoc, isnil_app, andb_assoc.
      repeat split; auto. exists m1, m2. auto.
    + intros (m & -> & (m1 & m2 & -> & Hm1 & Hm2) & ->).
      exists (b && isnil m1, m2 ++ rest). split.
      * apply IH1. exists m1. rewrite <- app_assoc. auto.
      * simpl. apply IH2. exists m2. rewrite isnil_app, andb_assoc. auto.
  - simpl. rewrite in_app_iff, IH1, IH2. split.
    + intros [(m & ? & ? & ?)|(m & ? & ? & ?)]; exists m; auto.
    + intros (m & ? & [?|?] & ?); [left|right]; exists m; auto.
  - simpl. rewrite in_app_iff, IH1. split.
    + intros [(m & ? & ? & ?)|[H|[]]]; [exists m; auto|].
      inversion H; subst. exists []. rewrite andb_true_r. auto.
    + intros (m & Hs & [? | ->] & ->); [left; exists m; auto|].
      right. left. simpl in Hs. subst. now rewrite andb_true_r.
  - apply rep_spec.
  - simpl. destruct b; split.
    + intros [H|[]]. inversion H; subst. exists []. auto.
    + intros (m & Hs & (-> & _) & ->). simpl in Hs. subst. now left.
    + intros [].
    + intros (m & _ & (_ & H) & _). discriminate.
  - simpl. split.
    + intros H. exists []. rewrite andb_true_r. simpl.
      destruct s as [|c [|d s]]; simpl in H.
      * destruct H as [H|[]]. inversion H; subst. auto.
      * destruct (Ascii.eqb_spec c "010"); [|destruct H].
        destruct H as [H|[]]. inversion H; subst. auto.
      * destruct H.
    + intros (m & Hs & (-> & Hrest) & ->). simpl in Hs. subst s.
      rewrite andb_true_r. destruct Hrest as [-> | ->]; simpl; auto.
Qed.

(** ** Scanning *)

Lemma mt_anchor_free (r : regex) :
  anchor_free r = true ->
  forall b b' m rest rest', mt r b m rest -> mt r b' m rest'.
Proof.
  induction r as [w|p|r1 IH1 r2 IH2|r1 IH1 r2 IH2|r1 IH1|p lo hi| |];
    simpl; intros Haf b b' m rest rest' H; try discriminate; auto.
  - apply andb_prop in Haf as [H1 H2].
    destruct H as (m1 & m2 & -> & Hm1 & Hm2). exists m1, m2. eauto.
  - apply andb_prop in Haf as [H1 H2]. destruct H; eauto.
  - destruct H; eauto.
Qed.

Lemma ms_nonempty_iff (r : regex) (b : bool) (s : str) :
  ms r b s <> [] <-> exists m rest, s = m ++ rest /\ mt r b m rest.
Proof.
  split.
  - destruct (ms r b s) as [|[b' rest] l] eqn:E; [congruence|]. intros _.
    assert (H : In (b', rest) (ms r b s)) by (rewrite E; now left).
    apply ms_spec in H as (m & ? & ? & ?). eauto.
  - intros (m & rest & Hs & Hm) E.
    assert (H : In (b && isnil m, rest) (ms r b s)) by (apply ms_spec; eauto).
    rewrite E in H. destruct H.
Qed.

Lemma sub_from_skip (r : regex) (repl : str) :
  match_len r false [] = None ->
  forall s k b,
    sub_from r repl (S k) b s = sub_from r repl 0 false (skipn (S k) s).
Proof.
  intros Hnil. induction s as [|c t IH]; intros k b.
  - simpl. now rewrite Hnil.
  - simpl. destruct k as [|k]; [reflexivity|]. apply IH.
Qed.

Lemma search_from_app (r : regex) (a s : str) :
  (forall b, ms r b s <> []) -> forall b, search_from r b (a ++ s) = true.
Proof.
  intros H. induction a as [|c a IH]; intros b.
  - simpl. specialize (H b). destruct s; simpl; destruct (ms r b _); congruence.
  - simpl. destruct (ms r b (c :: a ++ s)); auto.
Qed.

(** ** The reddit pattern *)

Lemma ms_cat_lit_flag (w : str) (r : regex) (b : bool) (s : str) :
  isnil w = false -> ms (Lit w @@ r) b s = ms (Lit w @@ r) false s.
Proof. intros Hw. cbn [ms]. now rewrite Hw, andb_false_r. Qed.

Lemma ms_reddit_flag (b : bool) (s : str) :
  ms REDDIT_PATTERN b s = ms REDDIT_PATTERN false s.
Proof. unfold REDDIT_PATTERN. now apply ms_cat_lit_flag. Qed.

Lemma ms_reddit_www (b : bool) (t : str) :
  ms REDDIT_PATTERN b (WWW_REDDIT ++ t) = [(false, t)].
Proof. rewrite ms_reddit_flag. reflexivity. Qed.

(** Shape of the texts the reddit pattern matches. *)
Lemma rep_exactly_2 (p : ascii -> bool) (b : bool) (m rest : str) :
  mt (exactly 2 p) b m rest -> exists x y, m = [x; y].
Proof.
  simpl. intros (_ & Hlo & Hhi).
  destruct m as [|x [|y [|z m]]]; simpl in *; try lia. eauto.
Qed.

Ltac break :=
  repeat match goal with
         | H : exists _, _ |- _ => destruct H
         | H : _ /\ _ |- _ => destruct H
         | H : _ \/ _ |- _ => destruct H
         end.

Ltac decide_chars :=
  repeat (cbn;
          match goal with
          | |- context [Ascii.eqb ?x ?y] => destruct (Ascii.eqb x y)
          end);
  cbn; auto.

Lemma reddit_shape (b : bool) (m rest : str) :
  mt REDDIT_PATTERN b m rest ->
  exists m', m = "h"%char :: m' /\ clash_all m'.
Proof.
  intros H. unfold REDDIT_PATTERN in H.
  cbn [mt chr] in H.
  break; subst;
  repeat match goal with
         | H : mt (exactly 2 _) _ _ _ |- _ =>
             apply rep_exactly_2 in H as (? & ? & ->)
         end;
  (eexists; split; [reflexivity|]);
  cbn [app list_ascii_of_string clash_all]; repeat split; decide_chars.
Qed.

(** Equations of [sub]. *)
Lemma sub_miss (c : ascii) (t : str) :
  ms REDDIT_PATTERN false (c :: t) = [] -> sub (c :: t) = c :: sub t.
Proof.
  intros H. unfold sub. cbn [sub_from]. unfold match_len. now rewrite H.
Qed.

Lemma sub_hit (s : str) (x : bool * str) (l : list (bool * str)) :
  ms REDDIT_PATTERN false s = x :: l -> sub s = WWW_REDDIT ++ sub (snd x).
Proof.
  intros H. destruct x as [b' rest].
  assert (Hin : In (b', rest) (ms REDDIT_PATTERN false s)) by (rewrite H; now left).
  apply ms_spec in Hin as (m & -> & Hm & _).
  apply reddit_shape in Hm as (m' & -> & _).
  unfold sub. cbn [app sub_from]. unfold match_len.
  change ("h"%char :: m' ++ rest) with (("h"%char :: m') ++ rest).
  rewrite H. cbn [snd].
  rewrite length_app, Nat.add_sub. cbn [length].
  assert (Hskip : forall k u, sub_from REDDIT_PATTERN WWW_REDDIT k false u
                              = sub_from REDDIT_PATTERN WWW_REDDIT 0 false (skipn k u)).
  { intros [|k] u; [reflexivity|]. now apply sub_from_skip. }
  rewrite Hskip, skipn_app, skipn_all, Nat.sub_diag. reflexivity.
Qed.

Lemma sub_www (t : str) : sub (WWW_REDDIT ++ t) = WWW_REDDIT ++ sub t.
Proof. exact (@sub_hit _ _ _ (ms_reddit_www false t)). Qed.

Lemma re_sub_reddit (s : str) : re_sub REDDIT_PATTERN WWW_REDDIT s = sub s.
Proof.
  unfold re_sub, sub. destruct s as [|c t]; [reflexivity|].
  cbn [sub_from]. unfold match_len. now rewrite ms_reddit_flag.
Qed.

Lemma compatb_common (a b x y : str) : a ++ x = b ++ y -> compatb a b = true.
Proof.
  revert b. induction a as [|c a IH]; intros [|d b] H; try reflexivity.
  simpl in *. inversion H; subst. rewrite Ascii.eqb_refl. simpl. eauto.
Qed.

(** A text none of whose suffixes starts like the replacement survives the
    substitution unchanged wherever it heads the result. *)
Lemma sub_prefix (m : str) :
  clash_all m ->
  forall t rest, m ++ rest = sub t -> exists rest', t = m ++ rest'.
Proof.
  induction m as [|c m IH]; intros Hc t rest E.
  - exists t. reflexivity.
  - destruct Hc as [Hc Hm].
    destruct t as [|d t]; [discriminate|].
    destruct (ms REDDIT_PATTERN false (d :: t)) as [|x l] eqn:El.
    + rewrite (@sub_miss _ _ El) in E. simpl in E. inversion E; subst.
      destruct (IH Hm _ _ H1) as (rest' & ->). exists rest'. reflexivity.
    + rewrite (@sub_hit _ _ _ El) in E.
      apply compatb_common in E. congruence.
Qed.

(** Substituting to the right of a position creates no match at it. *)
Lemma sub_no_new_hit (c : ascii) (t : str) :
  ms REDDIT_PATTERN false (c :: t) = [] ->
  ms REDDIT_PATTERN false (c :: sub t) = [].
Proof.
  intros Hmiss.
  destruct (ms REDDIT_PATTERN false (c :: sub t)) as [|x l] eqn:E; [reflexivity|].
  exfalso.
  assert (Hne : ms REDDIT_PATTERN false (c :: sub t) <> []) by congruence.
  apply ms_nonempty_iff in Hne as (m & rest & Hs & Hm).
  destruct (@reddit_shape _ _ _ Hm) as (m' & -> & Hclash).
  simpl in Hs. inversion Hs; subst.
  destruct (@sub_prefix _ Hclash _ _ (eq_sym H1)) as (rest' & ->).
  assert (Hne : ms REDDIT_PATTERN false (("h"%char :: m') ++ rest') <> []).
  { apply ms_nonempty_iff. exists ("h"%char :: m'), rest'. split; [reflexivity|].
    eapply mt_anchor_free; [reflexivity | exact Hm]. }
  apply Hne. exact Hmiss.
Qed.

Lemma sub_idempotent_len (n : nat) :
  forall s, length s <= n -> sub (sub s) = sub s.
Proof.
  induction n as [|n IH]; intros s Hlen.
  - destruct s; [reflexivity | simpl in Hlen; lia].
  - destruct s as [|c t]; [reflexivity|].
    destruct (ms REDDIT_PATTERN false (c :: t)) as [|x l] eqn:E.
    + rewrite (@sub_miss _ _ E).
      rewrite (@sub_miss _ _ (@sub_no_new_hit _ _ E)).
      rewrite IH; [reflexivity | simpl in Hlen; lia].
    + rewrite (@sub_hit _ _ _ E), sub_www. f_equal. apply IH.
      assert (Hin : In x (ms REDDIT_PATTERN false (c :: t))) by (rewrite E; now left).
      destruct x as [b' rest]. apply ms_spec in Hin as (m & Hs & Hm & _).
      apply reddit_shape in Hm as (m' & -> & _). simpl.
      apply (f_equal (@length _)) in Hs. simpl in Hs.
      rewrite length_app in Hs. simpl in Hlen. lia.
Qed.

Lemma sub_idempotent (s : str) : sub (sub s) = sub s.
Proof. exact (@sub_idempotent_len _ s (Nat.le_refl (length s))). Qed.

(** ** The plain-mention pattern *)

Lemma matches_plain_www (t : str) :
  matches PLAIN_SUBREDDIT_OR_USER (WWW_REDDIT ++ t) = false.
Proof. reflexivity. Qed.

Lemma dslash_cons_noslash (c : ascii) (t : str) :
  Ascii.eqb c "/" = false -> dslash (c :: t) = dslash t.
Proof. intros H. cbn [dslash]. now rewrite H. Qed.

Lemma dslash_slash_cons (c : ascii) (t : str) :
  Ascii.eqb c "/" = false -> dslash ("/"%char :: c :: t) = dslash (c :: t).
Proof. intros H. cbn [dslash]. now rewrite H. Qed.

Lemma dslash_noslash (w t : str) :
  forallb not_slash w = true -> dslash (w ++ t) = dslash t.
Proof.
  induction w as [|c w IH]; [reflexivity|]. simpl forallb. intros H.
  apply andb_prop in H as [Hc Hw]. apply negb_true_iff in Hc.
  cbn [app]. rewrite dslash_cons_noslash; auto.
Qed.

Lemma plain_shape (b : bool) (m rest : str) :
  mt PLAIN_SUBREDDIT_OR_USER b m rest -> dslash (m ++ rest) = false.
Proof.
  intros H. unfold PLAIN_SUBREDDIT_OR_USER, u_user_r, plus in H.
  cbn [mt chr] in H. break; subst;
    match goal with
    | Hw : forallb not_slash ?w = true, Hl : 1 <= length ?w |- _ =>
        destruct w as [|c w]; [simpl in Hl; lia|];
        simpl forallb in Hw; apply andb_prop in Hw as [Hc Hw];
        apply negb_true_iff in Hc
    end;
    repeat rewrite <- app_assoc; cbn [app list_ascii_of_string];
    repeat first [ rewrite dslash_slash_cons by (assumption || reflexivity)
                 | rewrite dslash_cons_noslash by (assumption || reflexivity)
                 | rewrite dslash_noslash by assumption ];
    reflexivity.
Qed.

Lemma dslash_www (a t : str) : dslash (a ++ WWW_REDDIT ++ t) = true.
Proof.
  induction a as [|c a IH]; [reflexivity|].
  cbn [app dslash]. rewrite IH. apply orb_true_r.
Qed.

Lemma dslash_sub_fixed (t : str) : dslash (sub t) = false -> sub t = t.
Proof.
  induction t as [|c t IH]; [reflexivity|]. intros H.
  destruct (ms REDDIT_PATTERN false (c :: t)) as [|x l] eqn:E.
  - rewrite (@sub_miss _ _ E) in *. cbn [dslash] in H.
    apply orb_false_iff in H as [_ H]. now rewrite IH.
  - rewrite (@sub_hit _ _ _ E) in H.
    pose proof (dslash_www [] (sub (snd x))) as D.
    change (dslash (WWW_REDDIT ++ sub (snd x)) = true) in D. congruence.
Qed.

Lemma matches_true_iff (r : regex) (s : str) :
  matches r s = true <-> ms r true s <> [].
Proof.
  unfold matches, re_match. destruct (ms r true s); split; congruence.
Qed.

Lemma plain_after_sub (u : str) :
  matches PLAIN_SUBREDDIT_OR_USER u = false ->
  matches PLAIN_SUBREDDIT_OR_USER (sub u) = false.
Proof.
  intros Hu. destruct (matches PLAIN_SUBREDDIT_OR_USER (sub u)) eqn:E; [|reflexivity].
  pose proof E as E'.
  apply matches_true_iff, ms_nonempty_iff in E' as (m & rest & Hs & Hm).
  apply plain_shape in Hm. rewrite <- Hs in Hm.
  apply dslash_sub_fixed in Hm. congruence.
Qed.

(** C8: normalisation is idempotent: for every string [u],
    [fix_url (fix_url u)] equals [fix_url u]. *)
Theorem fix_url_idempotent (u : str) : fix_url (fix_url u) = fix_url u.
Proof.
  unfold fix_url. rewrite !re_sub_reddit.
  destruct (matches PLAIN_SUBREDDIT_OR_USER u) eqn:E.
  - change ($"http://www.reddit.com/" ++ u) with (WWW_REDDIT ++ "/"%char :: u).
    rewrite sub_www, matches_plain_www, sub_www. now rewrite sub_idempotent.
  - rewrite (@plain_after_sub _ E). apply sub_idempotent.
Qed.

(** First half of the filter's contract: a URL the reddit pattern matches
    and that ends in a bare mention is skipped. *)
Lemma skip_url_bare (pre kind x slash : str) :
  let u := pre ++ "/"%char :: kind ++ "/"%char :: x ++ slash in
  matches REDDIT_PATTERN u = true ->
  kind = $"u" \/ kind = $"user" \/ kind = $"r" ->
  forallb not_slash x = true -> 1 <= length x ->
  slash = [] \/ slash = $"/" ->
  skip_url u = true.
Proof.
  intros u Hm Hk Hx Hlen Hs. unfold skip_url. rewrite Hm. cbn [andb].
  unfold re_search, u. rewrite search_from_app; [reflexivity|].
  intros b. apply ms_nonempty_iff.
  exists ("/"%char :: kind ++ "/"%char :: x ++ slash), []. split.
  - now rewrite app_nil_r.
  - unfold SUBREDDIT_OR_USER, u_user_r, plus. cbn [mt chr].
    exists ["/"%char], (kind ++ "/"%char :: x ++ slash). repeat split.
    exists kind, ("/"%char :: x ++ slash). split; [reflexivity|]. split.
    { tauto. }
    exists ["/"%char], (x ++ slash). repeat split.
    exists x, slash. split; [reflexivity|]. repeat split; auto.
    exists slash, []. split; [now rewrite app_nil_r|]. split.
    { destruct Hs as [-> | ->]; auto. }
    split; auto.
Qed.

(** The model against CPython's [re] on sample inputs. *)
Example fix_url_samples :
  map fix_url
    [ $"r/test"; $"/r/test"; $"https://en-us.reddit.com/u/x/";
      $"http://wwwreddit.com/r/x"; $"xhttp://pay.reddit.com/r/x";
      $"http://example.com/?u=https://ssl.reddit.com/a" ]
  = [ $"http://www.reddit.com/r/test"; $"http://www.reddit.com//r/test";
      $"http://www.reddit.com/u/x/"; $"http://www.reddit.com/r/x";
      $"xhttp://www.reddit.com/r/x";
      $"http://example.com/?u=http://www.reddit.com/a" ].
Proof. vm_compute. reflexivity. Qed.

(** C6: [skip_url] is not exact.  A reddit URL whose path is the bare
    mention [/r/u] is skipped, as it should be, but so are that URL
    extended with the segment [foo] and the deep link [/r/test/u/foo]:
    the mention pattern is searched anywhere in the URL, so a longer path
    that ends like a mention is skipped too.  An extension that does not
    end like a mention is kept. *)
Theorem skip_url_skips_deep_links :
  skip_url $"http://www.reddit.com/r/u" = true
  /\ skip_url $"http://www.reddit.com/r/u/foo" = true
  /\ skip_url $"http://www.reddit.com/r/test/u/foo" = true
  /\ skip_url $"http://www.reddit.com/r/test/comments" = false.
Proof. repeat split; vm_compute; reflexivity. Qed.

(** C7: the worked example fails on the code.  The reddit pattern asks for
    a subdomain prefix before [reddit.com], so [fix_url] returns the naked
    subreddit link [http://reddit.com/r/test] as it is and [skip_url] does
    not skip it, although the same link with a listed prefix, as in
    [http://m.reddit.com/r/test], is normalised to
    [http://www.reddit.com/r/test], which [skip_url] skips. *)
Theorem fix_url_worked_example :
  fix_url $"http://reddit.com/r/test" = $"http://reddit.com/r/test"
  /\ skip_url (fix_url $"http://reddit.com/r/test") = false
  /\ fix_url $"http://m.reddit.com/r/test" = $"http://www.reddit.com/r/test"
  /\ skip_url $"http://www.reddit.com/r/test" = true.
Proof. repeat split; vm_compute; reflexivity. Qed.

(** ** Providers *)

Lemma archive_recoverable_failed (ext : external) (k : site) (u : str)
      (w : world) (e : exn) :
  RECOVERABLE_EXC e = true ->
  (k = ArchiveIs /\ http_post ext $"https://archive.is/submit/" [($"url", u)] = Raise e)
  \/ (k = MegalodonJP /\ http_post ext MEGALODON_DECIDE [($"url", u)] = Raise e) ->
  fst (archive ext (Archive_init k u) w) = Ok PyFalse.
Proof.
  intros He [[-> H] | [-> H]];
    cbv [archive bind catch_recoverable s_post call Archive_init kind a_url];
    rewrite H, He; reflexivity.
Qed.

Lemma archive_org_recoverable (ext : external) (u : str) (w : world) (e : exn) :
  RECOVERABLE_EXC e = true ->
  http_get ext ($"https://web.archive.org/save/" ++ u) = Raise e ->
  fst (archive ext (Archive_init ArchiveOrg u) w) = Raise (NameError "HTTPError").
Proof.
  intros He H.
  cbv [archive bind catch_recoverable s_get call Archive_init kind a_url].
  rewrite H, He. reflexivity.
Qed.

(** C3: a recoverable error raised by the request of
    [ArchiveOrgArchive.archive] is not turned into [False] or [None]: the
    handler raises NameError, which reaches the caller.  The archive.is and
    megalodon.jp providers do turn the same error into [False]. *)
Theorem archive_org_error_escapes :
  fst (archive ext_down (Archive_init ArchiveOrg $"http://example.com/") empty_world)
  = Raise (NameError "HTTPError")
  /\ fst (archive ext_down (Archive_init ArchiveIs $"http://example.com/") empty_world)
     = Ok PyFalse
  /\ fst (archive ext_down (Archive_init MegalodonJP $"http://example.com/") empty_world)
     = Ok PyFalse.
Proof. repeat split; vm_compute; reflexivity. Qed.

(** ** Rendering *)

Lemma build_subparts_failed (repr : Archive -> str) (l : list Archive) :
  (exists a, In a l /\ archived a = PyFalse) ->
  exists e, build_subparts repr l = Raise e.
Proof.
  induction l as [|a l IH]; intros (x & Hin & Hx); [destruct Hin|].
  simpl. destruct Hin as [-> | Hin].
  - rewrite Hx. simpl. unfold error_link_and_hint. destruct (kind x); eauto.
  - destruct (IH (ex_intro _ x (conj Hin Hx))) as (e & He). rewrite He.
    destruct (is_none (archived a)); [eauto|].
    destruct (archived a) as [| |[|c s]]; unfold error_link_and_hint;
      destruct (kind a); eauto.
Qed.

Lemma build_lines_failed (repr : Archive -> str) (l : list Link) :
  (exists k a, In k l /\ In a (archives k) /\ archived a = PyFalse) ->
  forall i, exists e, build_lines repr i l = Raise e.
Proof.
  induction l as [|k l IH]; intros (x & a & Hin & Ha & Hf) i; [destruct Hin|].
  simpl. destruct Hin as [-> | Hin].
  - destruct (@build_subparts_failed repr (archives x)) as (e & ->); eauto.
  - destruct (build_subparts repr (archives k)); [|eauto].
    destruct (IH (ex_intro _ x (ex_intro _ a (conj Hin (conj Ha Hf)))) (S i))
      as (e & ->). eauto.
Qed.

Lemma build_failed (repr : Archive -> str) (n : Notification) (draw : nat) :
  (exists k a, In k (n_links n) /\ In a (archives k) /\ archived a = PyFalse) ->
  exists e, _build repr n draw = Raise e.
Proof.
  intros H. unfold _build.
  destruct (@build_lines_failed repr _ H 1) as (e & ->). eauto.
Qed.

(** C4: a link with a failed attempt ([archived == False]) gets no line:
    [Notification._build] raises TypeError at the failed attempt, and
    [Link.format], the other renderer, prints "None" where the
    resubmission link should be. *)
Theorem failed_attempt_breaks_build :
  _build example_repr
    {| post := example_post; header := no_header; n_links := [failed_link] |} 0
  = Raise (TypeError "unsupported operand type(s) for +: 'method' and 'str'")
  /\ Link_format failed_link 1
     = $"1. [Example](http://example.com/) - [_archive.is\*_](None "
         ++ ["034"%char] ++ $"could not auto-archive; click to resubmit!"
         ++ ["034"%char] ++ $")".
Proof. split; vm_compute; reflexivity. Qed.

(** ** Posting *)

Lemma notify_keeps_links (ext : external) (repr : Archive -> str)
      (n : Notification) (draw : nat) (w : world) :
  links (snd (notify ext repr n draw w)) = links w.
Proof.
  unfold notify, bind, catch_recoverable, lift, Post_add_comment, bind,
    praw_add_comment, r_submit, call, ret, attr_name, raise.
  destruct (_build repr n draw) as [comment|e]; cbn [links snd fst].
  - destruct (9999 <? Z.of_nat (length comment))%Z; cbn [links snd fst].
    + destruct (reddit_submit ext _ _ _) as [s|e]; cbn [links snd fst].
      * destruct (reddit_add_comment ext (name s) _) as [c|e]; cbn [links snd fst].
        -- destruct (reddit_add_comment ext _ _) as [c'|e]; cbn [links snd fst]; auto.
           destruct (RECOVERABLE_EXC e); auto.
        -- destruct (RECOVERABLE_EXC e); auto.
      * destruct (RECOVERABLE_EXC e); auto.
    + destruct (reddit_add_comment ext _ _) as [c'|e]; cbn [links snd fst]; auto.
      destruct (RECOVERABLE_EXC e); auto.
  - destruct (RECOVERABLE_EXC e); auto.
Qed.

(** C5: when the comment is posted, [notify] still writes no row:
    [Post.add_comment] returns [None], so reading [comment.name] raises
    AttributeError before the INSERT. *)
Theorem posted_comment_not_recorded :
  let n := {| post := example_post; header := no_header; n_links := [] |} in
  let w' := snd (notify ext_up example_repr n 0 empty_world) in
  fst (notify ext_up example_repr n 0 empty_world)
  = Raise (AttributeError "'NoneType' object has no attribute 'name'")
  /\ log w' = [EvAddComment $"t3_abc" (join NL2 [[]; $"Snapshots:"; get_footer])]
  /\ links w' = [].
Proof. repeat split; vm_compute; reflexivity. Qed.

(** C2: overflow policy.  When the assembled text is longer than 9999
    characters, [notify] submits it, cut to 39999 characters, to
    SnapshillBotEx, comments on that submission with the origin's
    permalink, and comments on the origin with a link to the submission;
    the text itself is not posted on the origin.  Otherwise the text is
    posted on the origin as one comment. *)
Theorem notify_overflow_policy (ext : external) (repr : Archive -> str)
        (n : Notification) (draw : nat) (w : world) (comment : str) :
  _build repr n draw = Ok comment ->
  let origin := Post_name (post n) in
  let link := Post_permalink (post n) in
  let title := $"Archives for " ++ link in
  let back := $"The original submission can be found here:" ++ NL2 ++ link in
  let short (s : Submission) :=
    $"Wow, that's a lot of links! The snapshots can be [found here.]("
     ++ url s ++ $")" ++ NL2 ++ get_footer in
  ((9999 < Z.of_nat (length comment))%Z ->
   forall s c,
     reddit_submit ext $"SnapshillBotEx" title (firstn (Z.to_nat 39999) comment)
     = Ok s ->
     reddit_add_comment ext (name s) back = Ok c ->
     log (snd (notify ext repr n draw w))
     = log w ++ [EvSubmit $"SnapshillBotEx" title (firstn (Z.to_nat 39999) comment);
                 EvAddComment (name s) back;
                 EvAddComment origin (short s)])
  /\ ((Z.of_nat (length comment) <= 9999)%Z ->
      log (snd (notify ext repr n draw w)) = log w ++ [EvAddComment origin comment]).
Proof.
  intros Hb origin link title back short.
  subst origin link title back short. cbn beta.
  unfold notify, bind, catch_recoverable, lift, Post_add_comment, bind,
    praw_add_comment, r_submit, call, ret, attr_name, raise, Post_name.
  rewrite Hb. cbn beta iota zeta. split.
  - intros Hlen s c Hs Hc. apply Z.ltb_lt in Hlen.
    rewrite Hlen, Hs. cbn [log links]. rewrite Hc. cbn [log links].
    destruct (reddit_add_comment ext (name (submission (post n))) _) as [c'|e];
      cbn [log links fst snd].
    + rewrite <- !app_assoc. reflexivity.
    + destruct (RECOVERABLE_EXC e); cbn [log links fst snd];
        rewrite <- !app_assoc; reflexivity.
  - intros Hlen. apply Z.ltb_ge in Hlen. rewrite Hlen.
    destruct (reddit_add_comment ext _ _) as [c'|e]; cbn [log links fst snd].
    + reflexivity.
    + destruct (RECOVERABLE_EXC e); reflexivity.
Qed.

Lemma notify_overflow_policy_witness :
  log (snd (notify ext_up example_repr long_notification 0 empty_world))
  = log empty_world
    ++ [EvSubmit $"SnapshillBotEx"
          ($"Archives for " ++ Post_permalink example_post)
          (firstn (Z.to_nat 39999) long_comment);
        EvAddComment (name new_submission)
          ($"The original submission can be found here:" ++ NL2
            ++ Post_permalink example_post);
        EvAddComment (Post_name example_post)
          ($"Wow, that's a lot of links! The snapshots can be [found here.]("
            ++ url new_submission ++ $")" ++ NL2 ++ get_footer)].
Proof.
  assert (Hb : _build example_repr long_notification 0 = Ok long_comment)
    by (vm_compute; reflexivity).
  assert (Hlen : (9999 < Z.of_nat (length long_comment))%Z)
    by (vm_compute; reflexivity).
  exact (proj1 (@notify_overflow_policy ext_up example_repr long_notification 0
                  empty_world long_comment Hb)
           Hlen new_submission {| comment_name := $"t1_re1" |} eq_refl eq_refl).
Defined.

(** ** The run cycle *)

Lemma str_eqb_eq (a b : str) : str_eqb a b = true <-> a = b.
Proof. unfold str_eqb. destruct (list_eq_dec ascii_dec a b); split; congruence. Qed.

Lemma existsb_str_eqb (u : str) (l : list str) :
  existsb (str_eqb u) l = true <-> In u l.
Proof.
  rewrite existsb_exists. split.
  - intros (x & Hin & Heq). apply str_eqb_eq in Heq. now subst.
  - intros H. exists u. split; [assumption | now apply str_eqb_eq].
Qed.

(** C1: a run cycle that fetches an item with a row in [links] never
    reaches the dedup check.  The loop body stops at its first statement
    with NameError, after the single call [r.get_new] and without any
    SELECT; the method [Post.should_notify], which nothing calls, is the
    check that answers [False] for that item. *)
Theorem run_stops_before_dedup_check :
  fst (run ext_one_item ready recorded_world) = Raise (NameError "submis")
  /\ log (snd (run ext_one_item ready recorded_world)) = [EvGetNew 25]
  /\ should_notify example_post recorded_world
     = (Ok false, {| links := links recorded_world;
                     log := [EvSelect $"t3_abc"] |}).
Proof. repeat split; vm_compute; reflexivity. Qed.


(** ** Headers *)

Lemma parse_quotes_nonempty (s q : str) : In q (_parse_quotes s) -> q <> [].
Proof.
  unfold _parse_quotes. rewrite in_map_iff. intros (x & <- & Hx).
  apply filter_In in Hx as [_ Hx]. destruct (strip x); [discriminate|congruence].
Qed.

Lemma Header_get_spec (h : Header) (draw : nat) :
  (forall q, In q (texts h) -> q <> []) ->
  (Header_get h draw = [] <-> texts h = [])
  /\ (texts h <> [] -> In (Header_get h draw) (texts h)).
Proof.
  intros Hne. unfold Header_get, random_choice.
  destruct (texts h) as [|t ts] eqn:E; cbn [isnil].
  - split; [tauto | congruence].
  - assert (Hin : In (nth (draw mod length (t :: ts)) (t :: ts) []) (t :: ts)).
    { apply nth_In. apply Nat.mod_upper_bound. discriminate. }
    split; [|auto]. split; [|discriminate].
    intros H. rewrite H in Hin. now apply Hne in Hin.
Qed.

(** C10: building a [Header] when the wiki fetch raises a recoverable
    error gives a header with no texts, and [Header.get] on a built header
    returns the empty string exactly when there are no texts and one of the
    texts otherwise. *)
Theorem header_total (ext : external) (sw sr : str) (w : world) :
  reddit_get_subreddit ext sw = Ok tt ->
  (forall e,
      wiki_content_md ext sw ($"extxt/" ++ lower sr) = Raise e ->
      RECOVERABLE_EXC e = true ->
      fst (Header_init ext sw sr w) = Ok {| subreddit := sr; texts := [] |})
  /\ (forall h draw,
         fst (Header_init ext sw sr w) = Ok h ->
         (Header_get h draw = [] <-> texts h = [])
         /\ (texts h <> [] -> In (Header_get h draw) (texts h))).
Proof.
  intros Hsub.
  unfold Header_init, _get_wiki_content, bind, call, catch_recoverable, ret.
  rewrite Hsub. cbn [fst snd log links]. split.
  - intros e He Hrec. rewrite He. cbn beta iota. rewrite Hrec. reflexivity.
  - intros h draw.
    destruct (wiki_content_md ext sw _) as [content|e].
    + destruct (negb (startswith content $"!ignore")); cbn [fst];
        intros [= <-]; apply Header_get_spec; cbn [texts].
      * intros q. apply parse_quotes_nonempty.
      * intros q [].
    + destruct (RECOVERABLE_EXC e); cbn [fst]; [|discriminate].
      intros [= <-]. apply Header_get_spec. intros q [].
Qed.

Lemma header_total_witness :
  (forall e,
      wiki_content_md ext_down $"SnapshillBot" ($"extxt/" ++ lower $"All") = Raise e ->
      RECOVERABLE_EXC e = true ->
      fst (Header_init ext_down $"SnapshillBot" $"All" empty_world)
      = Ok {| subreddit := $"All"; texts := [] |})
  /\ (forall h draw,
         fst (Header_init ext_down $"SnapshillBot" $"All" empty_world) = Ok h ->
         (Header_get h draw = [] <-> texts h = [])
         /\ (texts h <> [] -> In (Header_get h draw) (texts h))).
Proof.
  apply (@header_total ext_down $"SnapshillBot" $"All" empty_world).
  reflexivity.
Defined.

(** * Further properties *)

(** ** The filter, exactly *)

Lemma search_from_true (r : regex) (s : str) :
  forall b, search_from r b s = true ->
            exists pre t b', s = pre ++ t /\ ms r b' t <> [].
Proof.
  induction s as [|c s IH]; intros b H; simpl in H.
  - destruct (ms r b []) eqn:E; [discriminate|].
    exists [], [], b. split; [reflexivity | congruence].
  - destruct (ms r b (c :: s)) eqn:E.
    + destruct (IH _ H) as (pre & t & b' & -> & Ht).
      exists (c :: pre), t, b'. auto.
    + exists [], (c :: s), b. split; [reflexivity | congruence].
Qed.

Lemma mention_matches (b : bool) (t : str) :
  ms SUBREDDIT_OR_USER b t <> [] <-> bare_mention t.
Proof.
  rewrite ms_nonempty_iff. split.
  - intros (m & rest & -> & H).
    unfold SUBREDDIT_OR_USER, u_user_r, plus in H. cbn [mt chr] in H.
    destruct H as (m1 & m2 & -> & -> & kind & m3 & -> & Hk & m4 & m5 & -> & ->
                   & x & m6 & -> & (Hx & Hlen & _) & slash & m7 & -> & Hs
                   & -> & Hrest).
    exists kind, x, slash, rest. rewrite app_nil_r.
    repeat rewrite <- app_assoc. cbn [app]. repeat split; auto.
    destruct Hs as [-> | ->]; auto.
  - intros (kind & x & slash & nl & -> & Hk & Hx & Hlen & Hs & Hnl).
    exists ("/"%char :: kind ++ "/"%char :: x ++ slash), nl. split.
    { cbn [app]. repeat (rewrite <- app_assoc; cbn [app]). reflexivity. }
    unfold SUBREDDIT_OR_USER, u_user_r, plus. cbn [mt chr].
    exists ["/"%char], (kind ++ "/"%char :: x ++ slash). repeat split.
    exists kind, ("/"%char :: x ++ slash). split; [reflexivity|]. split.
    { tauto. }
    exists ["/"%char], (x ++ slash). repeat split.
    exists x, slash. split; [reflexivity|]. repeat split; auto.
    exists slash, []. split; [now rewrite app_nil_r|]. split.
    { destruct Hs as [-> | ->]; auto. }
    split; auto.
Qed.

Lemma skip_url_of_mention (pre t : str) :
  matches REDDIT_PATTERN (pre ++ t) = true -> bare_mention t ->
  skip_url (pre ++ t) = true.
Proof.
  intros Hm Ht. unfold skip_url. rewrite Hm. cbn [andb].
  unfold re_search. rewrite search_from_app; [reflexivity|].
  intros b. now apply mention_matches.
Qed.

(** X1: [skip_url] returns true exactly for the URLs that the reddit
    pattern matches at their start and that end with [/u/name],
    [/user/name] or [/r/name] (the name free of slashes), optionally
    followed by a slash and by a final newline. *)
Theorem skip_url_exact (u : str) :
  skip_url u = true <->
  matches REDDIT_PATTERN u = true
  /\ exists pre t, u = pre ++ t /\ bare_mention t.
Proof.
  unfold skip_url. split.
  - intros H. destruct (matches REDDIT_PATTERN u); [|discriminate].
    split; [reflexivity|]. cbn [andb] in H.
    destruct (re_search SUBREDDIT_OR_USER u) eqn:E; [|discriminate].
    apply search_from_true in E as (pre & t & b' & -> & Ht).
    exists pre, t. split; [reflexivity|]. now apply (mention_matches b').
  - intros (Hm & pre & t & -> & Ht). fold (skip_url (pre ++ t)).
    now apply skip_url_of_mention.
Qed.

Lemma reddit_dslash (b : bool) (m rest : str) :
  mt REDDIT_PATTERN b m rest -> dslash (m ++ rest) = true.
Proof.
  intros H. unfold REDDIT_PATTERN in H. cbn [mt chr] in H.
  break; subst; reflexivity.
Qed.

Lemma sub_no_dslash (t : str) : dslash t = false -> sub t = t.
Proof.
  induction t as [|c t IH]; [reflexivity|]. intros H.
  destruct (ms REDDIT_PATTERN false (c :: t)) as [|x l] eqn:E.
  - rewrite (@sub_miss _ _ E). cbn [dslash] in H.
    apply orb_false_iff in H as [_ H]. now rewrite IH.
  - assert (Hne : ms REDDIT_PATTERN false (c :: t) <> []) by congruence.
    apply ms_nonempty_iff in Hne as (m & rest & Hs & Hm).
    apply reddit_dslash in Hm. congruence.
Qed.

Lemma plain_decomp (b : bool) (m rest : str) :
  mt PLAIN_SUBREDDIT_OR_USER b m rest ->
  exists pre kind x slash,
    m = pre ++ kind ++ "/"%char :: x ++ slash
    /\ (pre = [] \/ pre = $"/")
    /\ (kind = $"u" \/ kind = $"user" \/ kind = $"r")
    /\ forallb not_slash x = true /\ 1 <= length x
    /\ (slash = [] \/ slash = $"/")
    /\ (rest = [] \/ rest = ["010"%char]).
Proof.
  intros H. unfold PLAIN_SUBREDDIT_OR_USER, u_user_r, plus in H.
  cbn [mt chr] in H.
  destruct H as (m0 & m1 & -> & (-> & _) & pre & m2 & -> & Hp & kind & m3 & ->
                 & Hk & m4 & m5 & -> & -> & x & m6 & -> & (Hx & Hlen & _)
                 & slash & m7 & -> & Hs & -> & Hrest).
  exists pre, kind, x, slash. rewrite app_nil_r. cbn [app].
  repeat split; auto.
  - destruct Hp as [-> | ->]; auto.
  - destruct Hs as [-> | ->]; auto.
Qed.

Lemma fix_url_plain (u : str) :
  matches PLAIN_SUBREDDIT_OR_USER u = true ->
  fix_url u = $"http://www.reddit.com/" ++ u.
Proof.
  intros Hp. unfold fix_url. rewrite Hp, re_sub_reddit.
  change ($"http://www.reddit.com/" ++ u) with (WWW_REDDIT ++ "/"%char :: u).
  rewrite sub_www, sub_miss by reflexivity.
  apply matches_true_iff, ms_nonempty_iff in Hp as (m & rest & -> & Hm).
  apply plain_shape in Hm. now rewrite (sub_no_dslash _ Hm).
Qed.

Lemma plain_skipped (u : str) :
  matches PLAIN_SUBREDDIT_OR_USER u = true -> skip_url (fix_url u) = true.
Proof.
  intros Hp. rewrite (fix_url_plain u Hp).
  assert (Hw : forall t, matches REDDIT_PATTERN (WWW_REDDIT ++ t) = true).
  { intros t. apply matches_true_iff. rewrite ms_reddit_www. discriminate. }
  apply matches_true_iff, ms_nonempty_iff in Hp as (m & rest & -> & Hm).
    apply plain_decomp in Hm
      as (pre & kind & x & slash & -> & Hpre & Hk & Hx & Hlen & Hs & Hrest).
    assert (Hb : bare_mention ("/"%char :: kind ++ "/"%char :: x ++ slash ++ rest)).
    { exists kind, x, slash, rest. repeat split; auto. }
    destruct Hpre as [-> | ->].
    + replace ($"http://www.reddit.com/" ++ ([] ++ kind ++ "/"%char :: x ++ slash) ++ rest)
        with (WWW_REDDIT ++ "/"%char :: kind ++ "/"%char :: x ++ slash ++ rest).
      * apply skip_url_of_mention; [apply Hw | exact Hb].
      * cbn [app]. repeat (rewrite <- app_assoc; cbn [app]). reflexivity.
    + replace ($"http://www.reddit.com/" ++ ($"/" ++ kind ++ "/"%char :: x ++ slash) ++ rest)
        with ((WWW_REDDIT ++ $"/") ++ "/"%char :: kind ++ "/"%char :: x ++ slash ++ rest).
      * apply skip_url_of_mention; [rewrite <- app_assoc; apply Hw | exact Hb].
      * cbn [app]. repeat (rewrite <- app_assoc; cbn [app]). reflexivity.
Qed.

(** X2: a plain mention ([r/name], [/u/name/], ...) is normalised by
    putting [http://www.reddit.com/] in front of it, the mention kept as it
    is (a leading slash gives a double slash), and the result is a URL that
    [skip_url] skips. *)
Theorem plain_mention_normalised (u : str) :
  matches PLAIN_SUBREDDIT_OR_USER u = true ->
  fix_url u = $"http://www.reddit.com/" ++ u
  /\ skip_url (fix_url u) = true.
Proof.
  intros Hp. split; [now apply fix_url_plain | now apply plain_skipped].
Qed.

Lemma plain_mention_normalised_witness :
  fix_url $"/u/someone/" = $"http://www.reddit.com/" ++ $"/u/someone/"
  /\ skip_url (fix_url $"/u/someone/") = true.
Proof.
  apply (@plain_mention_normalised $"/u/someone/"). vm_compute. reflexivity.
Defined.

(** ** Hosts left by the normalisation *)

Lemma www_tail_no_h (a : str) (c : ascii) (t : str) :
  WWW_REDDIT = a ++ c :: t -> a <> [] -> c <> "h"%char.
Proof.
  intros E Ha. destruct a as [|x a]; [congruence|].
  assert (Hin : In c (tl WWW_REDDIT)).
  { rewrite E. cbn [tl app]. apply in_app_iff. right. now left. }
  intros ->. vm_compute in Hin.
  repeat (destruct Hin as [Hin|Hin]; [discriminate Hin|]). destruct Hin.
Qed.

Lemma app_eq_split {A} (a y w z : list A) :
  a ++ y = w ++ z ->
  (exists a', a = w ++ a' /\ z = a' ++ y)
  \/ (exists c w2, w = a ++ c :: w2 /\ y = c :: w2 ++ z).
Proof.
  revert w. induction a as [|x a IH]; intros w E.
  - destruct w as [|c w2].
    + left. exists []. auto.
    + right. exists c, w2. simpl in *. auto.
  - destruct w as [|c w2]; simpl in E.
    + left. exists (x :: a). simpl. auto.
    + inversion E; subst. destruct (IH _ H1) as [(a' & -> & ->)|(d & w3 & -> & ->)].
      * left. exists a'. auto.
      * right. exists d, w3. auto.
Qed.

Lemma sub_hits_canonical (n : nat) :
  forall t, length t <= n ->
  forall a m rest, sub t = a ++ m ++ rest -> mt REDDIT_PATTERN false m rest ->
                   m = WWW_REDDIT.
Proof.
  induction n as [|n IH]; intros t Hlen a m rest E Hm;
    destruct (reddit_shape Hm) as (m' & -> & _).
  - destruct t; [|simpl in Hlen; lia]. destruct a; discriminate.
  - destruct t as [|c t]; [destruct a; discriminate|]. simpl in Hlen.
    destruct (ms REDDIT_PATTERN false (c :: t)) as [|x l] eqn:El.
    + rewrite (@sub_miss _ _ El) in E. destruct a as [|d a].
      * exfalso. assert (Hne : ms REDDIT_PATTERN false (c :: sub t) <> []).
        { apply ms_nonempty_iff. exists ("h"%char :: m'), rest. auto. }
        now rewrite (@sub_no_new_hit _ _ El) in Hne.
      * simpl in E. inversion E; subst. apply (IH t ltac:(lia) a ("h"%char :: m') rest); [exact H1 | exact Hm].
    + rewrite (@sub_hit _ _ _ El) in E.
      assert (Hr : length (snd x) <= n).
      { assert (Hin : In x (ms REDDIT_PATTERN false (c :: t))) by (rewrite El; now left).
        destruct x as [b' r]. apply ms_spec in Hin as (m0 & Hs & Hm0 & _).
        apply reddit_shape in Hm0 as (m0' & -> & _). cbn [snd].
        apply (f_equal (@length _)) in Hs. simpl in Hs.
        rewrite length_app in Hs. lia. }
      symmetry in E.
      apply app_eq_split in E as [(a' & -> & E)|(d & w2 & E1 & E2)].
      * apply (IH (snd x) Hr a' ("h"%char :: m') rest); [exact E | exact Hm].
      * destruct a as [|y a].
        -- cbn [app] in E1.
           assert (E3 : ("h"%char :: m') ++ rest = WWW_REDDIT ++ sub (snd x)).
           { rewrite E1. exact E2. }
           assert (Hin : In (false && isnil ("h"%char :: m'), rest)
                           (ms REDDIT_PATTERN false (WWW_REDDIT ++ sub (snd x)))).
           { apply ms_spec. exists ("h"%char :: m'). auto. }
           rewrite ms_reddit_www in Hin. destruct Hin as [Hin|[]].
           injection Hin as Hrest. subst rest.
           now apply app_inv_tail in E3.
        -- exfalso. simpl in E2. inversion E2; subst.
           eapply (@www_tail_no_h (y :: a) "h"%char w2); eauto. discriminate.
Qed.

(** X3: in a normalised URL, every text the reddit pattern matches is
    the canonical [http://www.reddit.com]: no other reddit host is left. *)
Theorem fix_url_canonical_hosts (u m : str) :
  reddit_match_in (fix_url u) m -> m = WWW_REDDIT.
Proof.
  intros (a & rest & E & Hm). unfold fix_url in E. rewrite re_sub_reddit in E.
  exact (@sub_hits_canonical _ _ (Nat.le_refl _) a m rest E Hm).
Qed.

Lemma fix_url_canonical_hosts_witness :
  reddit_match_in (fix_url $"see https://m.reddit.com/top") WWW_REDDIT
  /\ WWW_REDDIT = WWW_REDDIT.
Proof.
  assert (H : reddit_match_in (fix_url $"see https://m.reddit.com/top") WWW_REDDIT).
  { exists ($"see "), ($"/top"). split; [vm_compute; reflexivity|].
    assert (Hin : In (false, $"/top") (ms REDDIT_PATTERN false (WWW_REDDIT ++ $"/top")))
      by (vm_compute; left; reflexivity).
    apply ms_spec in Hin as (m & Hs & Hm & _).
    apply app_inv_tail in Hs. now subst m. }
  split; [exact H|].
  exact (@fix_url_canonical_hosts $"see https://m.reddit.com/top" WWW_REDDIT H).
Defined.

Lemma sub_fixed_of_canonical (n : nat) :
  forall t, length t <= n ->
  (forall m, reddit_match_in t m -> m = WWW_REDDIT) -> sub t = t.
Proof.
  induction n as [|n IH]; intros t Hlen Hall.
  - destruct t; [reflexivity | simpl in Hlen; lia].
  - destruct t as [|c t]; [reflexivity|]. simpl in Hlen.
    destruct (ms REDDIT_PATTERN false (c :: t)) as [|x l] eqn:El.
    + rewrite (@sub_miss _ _ El). f_equal. apply IH; [lia|].
      intros m (a & rest & -> & Hm). apply Hall. exists (c :: a), rest. auto.
    + rewrite (@sub_hit _ _ _ El).
      assert (Hin : In x (ms REDDIT_PATTERN false (c :: t))) by (rewrite El; now left).
      destruct x as [b' r]. apply ms_spec in Hin as (m0 & Hs & Hm0 & _).
      cbn [snd].
      assert (Hm0' : m0 = WWW_REDDIT).
      { apply Hall. exists [], r. split; [exact Hs | exact Hm0]. }
      subst m0. rewrite Hs. f_equal. apply IH.
      * apply (f_equal (@length _)) in Hs. rewrite length_app in Hs.
        simpl in Hs. lia.
      * intros m (a & rest & -> & Hm). apply Hall.
        exists (WWW_REDDIT ++ a), rest. rewrite Hs, <- app_assoc. auto.
Qed.

(** X4: [fix_url] leaves a string unchanged exactly when it is not a plain
    mention and every text in it that the reddit pattern matches is already
    [http://www.reddit.com]. *)
Theorem fix_url_fixed_iff (u : str) :
  fix_url u = u <->
  matches PLAIN_SUBREDDIT_OR_USER u = false
  /\ forall m, reddit_match_in u m -> m = WWW_REDDIT.
Proof.
  split.
  - intros E. destruct (matches PLAIN_SUBREDDIT_OR_USER u) eqn:Hp.
    + rewrite (fix_url_plain u Hp) in E.
      apply (f_equal (@length _)) in E. rewrite length_app in E.
      simpl in E. lia.
    + split; [reflexivity|]. intros m (a & rest & Ea & Hm).
      unfold fix_url in E. rewrite Hp, re_sub_reddit in E. rewrite <- E in Ea.
      exact (@sub_hits_canonical _ u (Nat.le_refl _) a m rest Ea Hm).
  - intros [Hp Hall]. unfold fix_url. rewrite Hp, re_sub_reddit.
    exact (@sub_fixed_of_canonical _ u (Nat.le_refl _) Hall).
Qed.

(** ** Links and their rendering *)

(** X5: a new [Link] keeps its URL; its text is the given text when that
    has at most 35 characters and otherwise its first 35 characters followed
    by three dots, so at most 38 characters; its archives are archive.org,
    megalodon.jp, then snew.github.io exactly when the reddit pattern
    matches the URL, then archive.is, all for the same URL and none run. *)
Theorem Link_init_shape (u text : str) :
  l_url (Link_init u text) = u
  /\ length (l_text (Link_init u text)) <= LEN_MAX + 3
  /\ firstn LEN_MAX (l_text (Link_init u text)) = firstn LEN_MAX text
  /\ ((length text <= LEN_MAX /\ l_text (Link_init u text) = text)
      \/ (LEN_MAX < length text
          /\ l_text (Link_init u text) = firstn LEN_MAX text ++ $"..."
          /\ length (l_text (Link_init u text)) = LEN_MAX + 3))
  /\ map kind (archives (Link_init u text))
     = (if matches REDDIT_PATTERN u
        then [ArchiveOrg; MegalodonJP; Goldfish; ArchiveIs]
        else [ArchiveOrg; MegalodonJP; ArchiveIs])
  /\ Forall (fun a => a_url a = u /\ archived a = PyNone)
            (archives (Link_init u text)).
Proof.
  unfold Link_init. cbn [l_url l_text archives].
  destruct (LEN_MAX <? length text) eqn:E.
  - apply Nat.ltb_lt in E.
    assert (Hl : length (firstn LEN_MAX text ++ $"...") = LEN_MAX + 3).
    { rewrite length_app, length_firstn. cbn [length list_ascii_of_string]. lia. }
    repeat split.
    + lia.
    + rewrite firstn_app, firstn_firstn, Nat.min_id, length_firstn.
      replace (LEN_MAX - Nat.min LEN_MAX (length text)) with 0 by lia.
      cbn [firstn]. now rewrite app_nil_r.
    + right. auto.
    + destruct (matches REDDIT_PATTERN u); reflexivity.
    + destruct (matches REDDIT_PATTERN u); repeat constructor.
  - apply Nat.ltb_ge in E. repeat split.
    + lia.
    + left. auto.
    + destruct (matches REDDIT_PATTERN u); reflexivity.
    + destruct (matches REDDIT_PATTERN u); repeat constructor.
Qed.

Lemma filter_none_fresh (l : list Archive) :
  Forall (fun a => archived a = PyNone) l ->
  filter (fun a => negb (is_none (archived a))) l = [].
Proof.
  induction 1 as [|a l Ha _ IH]; [reflexivity|].
  cbn [filter]. now rewrite Ha, IH.
Qed.

Lemma build_subparts_fresh (repr : Archive -> str) (l : list Archive) :
  Forall (fun a => archived a = PyNone) l -> build_subparts repr l = Ok [].
Proof.
  induction 1 as [|a l Ha _ IH]; [reflexivity|].
  cbn [build_subparts]. now rewrite Ha, IH.
Qed.

Lemma Link_init_fresh (u text : str) :
  Forall (fun a => archived a = PyNone) (archives (Link_init u text)).
Proof.
  unfold Link_init. cbn [archives].
  destruct (matches REDDIT_PATTERN u); repeat constructor.
Qed.

(** X6: a link whose archives were never run renders without any
    provider: [Link.format] gives the number, the text and the URL followed
    by an empty list, and [_build] gives the number and the text. *)
Theorem fresh_link_renders_no_provider (repr : Archive -> str) (u text : str)
        (no : nat) :
  Link_format (Link_init u text) no
  = decimal no ++ $". [" ++ l_text (Link_init u text) ++ $"](" ++ u ++ $") - "
  /\ build_lines repr no [Link_init u text]
     = Ok [decimal no ++ $". " ++ l_text (Link_init u text) ++ $" - "].
Proof.
  split.
  - unfold Link_format. rewrite (filter_none_fresh (Link_init_fresh u text)).
    cbn [map join l_url Link_init]. now rewrite app_nil_r.
  - cbn [build_lines].
    rewrite (build_subparts_fresh repr (Link_init_fresh u text)).
    cbn [join]. now rewrite app_nil_r.
Qed.

Lemma build_subparts_ok_iff (repr : Archive -> str) (l : list Archive) :
  (exists parts, build_subparts repr l = Ok parts)
  <-> Forall (fun a => renderable a = true) l.
Proof.
  induction l as [|a l IH].
  - split; [constructor | intros _; exists []; reflexivity].
  - cbn [build_subparts]. unfold renderable at 1, error_link_and_hint.
    destruct (archived a) as [| |[|c s]] eqn:Ea; cbn [is_none].
    + rewrite IH. split.
      * intros H. constructor; [unfold renderable; now rewrite Ea | exact H].
      * intros H. now inversion H.
    + split.
      * intros (parts & H). destruct (kind a); discriminate.
      * intros H. inversion H as [|? ? Hr]; subst.
        unfold renderable in Hr. rewrite Ea in Hr. discriminate.
    + split.
      * intros (parts & H). destruct (kind a); discriminate.
      * intros H. inversion H as [|? ? Hr]; subst.
        unfold renderable in Hr. rewrite Ea in Hr. discriminate.
    + split.
      * intros (parts & H). destruct (build_subparts repr l) eqn:E; [|discriminate].
        constructor; [unfold renderable; now rewrite Ea|]. apply IH. eauto.
      * intros H. inversion H; subst.
        destruct (proj2 IH H3) as (parts & ->). eauto.
Qed.

Lemma build_lines_ok_iff (repr : Archive -> str) (l : list Link) :
  forall i,
    (exists lines, build_lines repr i l = Ok lines)
    <-> Forall (fun k => Forall (fun a => renderable a = true) (archives k)) l.
Proof.
  induction l as [|k l IH]; intros i.
  - split; [constructor | intros _; exists []; reflexivity].
  - cbn [build_lines]. split.
    + intros (lines & H).
      destruct (build_subparts repr (archives k)) eqn:E1; [|discriminate].
      destruct (build_lines repr (S i) l) eqn:E2; [|discriminate].
      constructor.
      * apply (build_subparts_ok_iff repr). eauto.
      * apply (IH (S i)). eauto.
    + intros H. inversion H as [|? ? H1 H2]; subst.
      apply (build_subparts_ok_iff repr) in H1 as (parts & ->).
      apply (IH (S i)) in H2 as (lines & ->). eauto.
Qed.

Lemma build_error_fatal (repr : Archive -> str) (n : Notification) (draw : nat)
      (e : exn) :
  _build repr n draw = Raise e -> RECOVERABLE_EXC e = false.
Proof.
  assert (Hs : forall l e0, build_subparts repr l = Raise e0 ->
                            RECOVERABLE_EXC e0 = false).
  { induction l as [|a l IH]; intros e0; cbn [build_subparts]; [discriminate|].
    unfold error_link_and_hint.
    destruct (is_none (archived a)); [apply IH|].
    destruct (archived a) as [| |[|c s]]; try (destruct (kind a); intros [= <-]; reflexivity).
    destruct (build_subparts repr l); [discriminate|]. intros [= <-]. now apply IH. }
  assert (Hl : forall l i e0, build_lines repr i l = Raise e0 ->
                              RECOVERABLE_EXC e0 = false).
  { induction l as [|k l IH]; intros i e0; cbn [build_lines]; [discriminate|].
    destruct (build_subparts repr (archives k)) eqn:E1.
    - destruct (build_lines repr (S i) l) eqn:E2; [discriminate|].
      intros [= <-]. eapply IH; eauto.
    - intros [= <-]. eapply Hs; eauto. }
  unfold _build. destruct (build_lines repr 1 (n_links n)) eqn:E; [discriminate|].
  intros [= <-]. eapply Hl; eauto.
Qed.

(** X7: [_build] returns a text exactly when every archive of every link
    is unattempted ([None]) or holds a non-empty URL; every exception it
    raises is outside RECOVERABLE_EXC. *)
Theorem build_ok_iff (repr : Archive -> str) (n : Notification) (draw : nat) :
  ((exists text, _build repr n draw = Ok text)
   <-> Forall (fun k => Forall (fun a => renderable a = true) (archives k))
              (n_links n))
  /\ (forall e, _build repr n draw = Raise e -> RECOVERABLE_EXC e = false).
Proof.
  split; [|intros e; apply build_error_fatal].
  rewrite <- (build_lines_ok_iff repr (n_links n) 1). unfold _build. split.
  - intros (text & H). destruct (build_lines repr 1 (n_links n)); [eauto|discriminate].
  - intros (lines & ->). eauto.
Qed.

(** ** Outcomes of [notify] *)

(** X8: when some archive holds [False] or an empty string, [notify]
    raises an exception outside RECOVERABLE_EXC before any call to reddit
    or to the database: nothing is posted and nothing is recorded. *)
Theorem notify_aborts_on_unrenderable (ext : external) (repr : Archive -> str)
        (n : Notification) (draw : nat) (w : world) :
  ~ Forall (fun k => Forall (fun a => renderable a = true) (archives k))
           (n_links n) ->
  exists e, notify ext repr n draw w = (Raise e, w)
            /\ RECOVERABLE_EXC e = false.
Proof.
  intros Hbad. destruct (_build repr n draw) as [text|e] eqn:E.
  - exfalso. apply Hbad.
    apply (proj1 (build_lines_ok_iff repr (n_links n) 1)).
    unfold _build in E. destruct (build_lines repr 1 (n_links n)); [eauto|discriminate].
  - exists e. pose proof (build_error_fatal _ _ _ E) as He. split; [|exact He].
    unfold notify, bind, catch_recoverable, lift. rewrite E. cbn beta iota.
    now rewrite He.
Qed.

Lemma notify_aborts_on_unrenderable_witness :
  exists e, notify ext_up example_repr failed_notification 0 empty_world
            = (Raise e, empty_world)
            /\ RECOVERABLE_EXC e = false.
Proof.
  apply (@notify_aborts_on_unrenderable ext_up example_repr failed_notification
           0 empty_world).
  intros H. inversion H as [|? ? H1 _]; subst. inversion H1 as [|? ? H2 _]; subst.
  vm_compute in H2. discriminate H2.
Defined.

(** X9: when the text fits in one comment and reddit answers the comment
    with a recoverable exception, [notify] returns normally after that one
    call and writes no row. *)
Theorem notify_swallows_recoverable (ext : external) (repr : Archive -> str)
        (n : Notification) (draw : nat) (w : world) (text : str) (e : exn) :
  _build repr n draw = Ok text ->
  (Z.of_nat (length text) <= 9999)%Z ->
  reddit_add_comment ext (Post_name (post n)) text = Raise e ->
  RECOVERABLE_EXC e = true ->
  notify ext repr n draw w
  = (Ok tt, {| links := links w;
               log := log w ++ [EvAddComment (Post_name (post n)) text] |}).
Proof.
  intros Hb Hlen Hc He. apply Z.ltb_ge in Hlen.
  unfold notify, bind, catch_recoverable, lift, Post_add_comment, bind,
    praw_add_comment, call, ret, Post_name in *.
  rewrite Hb. cbn beta iota zeta. rewrite Hlen, Hc. cbn beta iota.
  rewrite He. reflexivity.
Qed.

Lemma notify_swallows_recoverable_witness :
  notify ext_down example_repr short_notification 0 empty_world
  = (Ok tt, {| links := links empty_world;
               log := log empty_world
                      ++ [EvAddComment (Post_name (post short_notification))
                            (join NL2 [[]; $"Snapshots:"; get_footer])] |}).
Proof.
  apply (@notify_swallows_recoverable ext_down example_repr short_notification 0
           empty_world (join NL2 [[]; $"Snapshots:"; get_footer]) HTTPException).
  - reflexivity.
  - vm_compute. discriminate.
  - reflexivity.
  - reflexivity.
Defined.

(** X10: when reddit accepts every submission and every comment,
    [notify] never returns normally: it ends with an exception outside
    RECOVERABLE_EXC, and the [links] table is as before. *)
Theorem notify_never_completes (ext : external) (repr : Archive -> str)
        (n : Notification) (draw : nat) (w : world) :
  (forall sr title text, exists s, reddit_submit ext sr title text = Ok s) ->
  (forall thing text, exists c, reddit_add_comment ext thing text = Ok c) ->
  links (snd (notify ext repr n draw w)) = links w
  /\ exists e, fst (notify ext repr n draw w) = Raise e
               /\ RECOVERABLE_EXC e = false.
Proof.
  intros Hsub Hcom. split; [apply notify_keeps_links|].
  unfold notify, bind, catch_recoverable, lift, Post_add_comment, bind,
    praw_add_comment, r_submit, call, ret, attr_name, raise.
  destruct (_build repr n draw) as [comment|e] eqn:E; cbn beta iota.
  - destruct (9999 <? Z.of_nat (length comment))%Z; cbn beta iota zeta.
    + destruct (Hsub $"SnapshillBotEx"
                  ($"Archives for " ++ Post_permalink (post n))
                  (firstn (Z.to_nat 39999) comment)) as (s & ->).
      cbn beta iota.
      destruct (Hcom (name s)
                  ($"The original submission can be found here:" ++ NL2
                    ++ Post_permalink (post n))) as (c & ->).
      cbn beta iota.
      destruct (Hcom (name (submission (post n)))
                  ($"Wow, that's a lot of links! The snapshots can be [found here.]("
                    ++ url s ++ $")" ++ NL2 ++ get_footer)) as (c' & ->).
      cbn [fst]. eauto.
    + destruct (Hcom (name (submission (post n))) comment) as (c & ->).
      cbn [fst]. eauto.
  - pose proof (build_error_fatal _ _ _ E) as He. rewrite He. cbn [fst]. eauto.
Qed.

Lemma notify_never_completes_witness :
  links (snd (notify ext_up example_repr short_notification 0 empty_world))
  = links empty_world
  /\ exists e, fst (notify ext_up example_repr short_notification 0 empty_world)
               = Raise e
               /\ RECOVERABLE_EXC e = false.
Proof.
  apply (@notify_never_completes ext_up example_repr short_notification 0 empty_world).
  - intros sr title text. exists new_submission. reflexivity.
  - intros thing text. exists {| comment_name := $"t1_re1" |}. reflexivity.
Defined.

(** ** Outcomes of the providers *)

Lemma findall_from_matched (r : regex) (s : str) :
  forall skip b x,
    In x (findall_from r skip b s) -> exists b' rest, mt r b' x rest.
Proof.
  assert (Hlen : forall b (t : str) y l,
             ms r b t = y :: l ->
             mt r b (firstn (length t - length (snd y)) t) (snd y)).
  { intros b t [b' rest] l E.
    assert (Hin : In (b', rest) (ms r b t)) by (rewrite E; now left).
    apply ms_spec in Hin as (m & -> & Hm & _). cbn [snd].
    rewrite length_app, Nat.add_sub, firstn_app, Nat.sub_diag, firstn_all.
    cbn [firstn]. now rewrite app_nil_r. }
  induction s as [|c t IH]; intros skip b x; cbn [findall_from].
  - destruct skip; [|intros []]. unfold match_len.
    destruct (ms r b []) as [|y l] eqn:E; [intros []|].
    intros [<-|[]]. apply Hlen in E. cbn in E. eauto.
  - destruct skip as [|k]; [|apply IH]. unfold match_len.
    destruct (ms r b (c :: t)) as [|y l] eqn:E; [apply IH|].
    intros [<-|H]; [|eapply IH; eauto]. apply Hlen in E. eauto.
Qed.

Lemma archive_is_link_shape (b : bool) (m rest : str) :
  mt ARCHIVE_IS_LINK b m rest -> exists t, m = $"http" ++ t.
Proof.
  unfold ARCHIVE_IS_LINK. cbn [mt]. intros (m1 & m2 & -> & -> & _). eauto.
Qed.

(** X11: [archive()] never touches the [links] table, never returns
    [None], and makes at most one request, none at all for
    [GoldfishArchive]; a string returned by the archive.is or archive.org
    provider is not empty. *)
Theorem archive_outcome (ext : external) (a : Archive) (w : world) :
  links (snd (archive ext a w)) = links w
  /\ fst (archive ext a w) <> Ok PyNone
  /\ (log (snd (archive ext a w)) = log w
      \/ exists req, log (snd (archive ext a w)) = log w ++ [req]
                     /\ is_archival req = true)
  /\ (kind a = Goldfish -> log (snd (archive ext a w)) = log w)
  /\ (kind a = ArchiveIs \/ kind a = ArchiveOrg ->
      forall s, fst (archive ext a w) = Ok (PyStr s) -> s <> []).
Proof.
  unfold archive, bind, catch_recoverable, s_get, s_post, call, ret, raise.
  destruct (kind a) eqn:Ek; cbn [fst snd links log].
  - destruct (http_post ext _ _) as [res|e]; cbn [fst snd links log].
    + destruct (re_findall ARCHIVE_IS_LINK (res_text res)) as [|x l] eqn:Ef;
        cbn [fst snd links log]; repeat split; try discriminate; eauto.
      intros _ s [= <-].
      assert (Hin : In x (re_findall ARCHIVE_IS_LINK (res_text res)))
        by (rewrite Ef; now left).
      apply findall_from_matched in Hin as (b' & rest & Hm).
      apply archive_is_link_shape in Hm as (t & ->). discriminate.
    + destruct (RECOVERABLE_EXC e); cbn [fst snd links log];
        repeat split; try discriminate; eauto.
  - destruct (http_get ext _) as [res|e]; cbn [fst snd links log].
    + repeat split; try discriminate; eauto.
      intros _ s [= <-]. discriminate.
    + destruct (RECOVERABLE_EXC e); cbn [fst snd links log];
        repeat split; try discriminate; eauto.
  - destruct (http_post ext _ _) as [res|e]; cbn [fst snd links log].
    + destruct (str_eqb (res_url res) MEGALODON_DECIDE); cbn [fst snd links log];
        repeat split; try discriminate; eauto; intros [H|H]; discriminate H.
    + destruct (RECOVERABLE_EXC e); cbn [fst snd links log];
        repeat split; try discriminate; eauto; intros [H|H]; discriminate H.
  - repeat split; try discriminate; eauto. intros [H|H]; discriminate H.
Qed.

(** X12: for a URL the reddit pattern matches, [GoldfishArchive.archive]
    returns a URL on [https://snew.github.io] and makes no request. *)
Theorem goldfish_mirror (ext : external) (u : str) (w : world) :
  matches REDDIT_PATTERN u = true ->
  exists t, archive ext (Archive_init Goldfish u) w
            = (Ok (PyStr ($"https://snew.github.io" ++ t)), w).
Proof.
  intros Hm. cbv [archive Archive_init kind a_url ret].
  apply matches_true_iff in Hm.
  destruct (ms REDDIT_PATTERN true u) as [|[b' rest] l] eqn:E; [congruence|].
  assert (Hin : In (b', rest) (ms REDDIT_PATTERN true u)) by (rewrite E; now left).
  apply ms_spec in Hin as (m & -> & Hmt & _).
  apply reddit_shape in Hmt as (m' & -> & _).
  unfold re_sub. cbn [app sub_from]. unfold match_len.
  change ("h"%char :: m' ++ rest) with (("h"%char :: m') ++ rest).
  rewrite E. cbn [snd]. rewrite length_app, Nat.add_sub. cbn [length]. eauto.
Qed.

Lemma goldfish_mirror_witness :
  exists t, archive ext_down
              (Archive_init Goldfish $"https://pay.reddit.com/r/test/comments/1")
              empty_world
            = (Ok (PyStr ($"https://snew.github.io" ++ t)), empty_world).
Proof.
  apply (@goldfish_mirror ext_down $"https://pay.reddit.com/r/test/comments/1"
           empty_world).
  vm_compute. reflexivity.
Defined.

(** ** Header texts *)

Lemma lstrip_head (s : str) (c : ascii) (t : str) :
  lstrip s = c :: t -> is_space c = false.
Proof.
  induction s as [|x s IH]; cbn [lstrip]; [discriminate|].
  destruct (is_space x) eqn:E; [exact IH|]. now intros [= <- _].
Qed.

Lemma lstrip_fixed (s : str) :
  (forall c t, s = c :: t -> is_space c = false) -> lstrip s = s.
Proof.
  destruct s as [|c t]; [reflexivity|]. intros H. cbn [lstrip].
  now rewrite (H c t eq_refl).
Qed.

Lemma lstrip_split (s : str) : exists sp, s = sp ++ lstrip s.
Proof.
  induction s as [|x s (sp & IH)]; [exists []; reflexivity|].
  cbn [lstrip]. destruct (is_space x).
  - exists (x :: sp). cbn [app]. now rewrite <- IH.
  - exists []. reflexivity.
Qed.

Lemma strip_idempotent (x : str) : strip (strip x) = strip x.
Proof.
  unfold strip.
  set (y := lstrip x). set (z := lstrip (rev y)).
  assert (Hz : lstrip (rev z) = rev z).
  { apply lstrip_fixed. intros c t Hc.
    destruct (lstrip_split (rev y)) as (sp & Hsp). fold z in Hsp.
    apply (f_equal (@rev _)) in Hsp. rewrite rev_involutive, rev_app_distr, Hc in Hsp.
    apply (lstrip_head x (t := t ++ rev sp)). exact Hsp. }
  rewrite Hz, rev_involutive. f_equal.
  apply lstrip_fixed. intros c t Hc. exact (lstrip_head _ Hc).
Qed.

Lemma parse_quotes_texts (s : str) :
  Forall (fun q => q <> [] /\ strip q = q) (_parse_quotes s).
Proof.
  apply Forall_forall. intros q Hq. split.
  - exact (parse_quotes_nonempty _ Hq).
  - unfold _parse_quotes in Hq. apply in_map_iff in Hq as (x & <- & _).
    apply strip_idempotent.
Qed.

(** X13: [Header.__init__] raises exactly when [r.get_subreddit] raises or
    the wiki fetch raises an exception outside RECOVERABLE_EXC.  A header it
    returns is for the given subreddit, each of its texts is non-empty and
    has no leading or trailing whitespace, and it has no text when the wiki
    page starts with [!ignore].  The [links] table is untouched. *)
Theorem Header_init_outcome (ext : external) (sw sr : str) (w : world) :
  (forall e,
      fst (Header_init ext sw sr w) = Raise e <->
      reddit_get_subreddit ext sw = Raise e
      \/ (reddit_get_subreddit ext sw = Ok tt
          /\ wiki_content_md ext sw ($"extxt/" ++ lower sr) = Raise e
          /\ RECOVERABLE_EXC e = false))
  /\ (forall h,
         fst (Header_init ext sw sr w) = Ok h ->
         subreddit h = sr
         /\ Forall (fun q => q <> [] /\ strip q = q) (texts h)
         /\ (forall content,
                wiki_content_md ext sw ($"extxt/" ++ lower sr) = Ok content ->
                startswith content $"!ignore" = true -> texts h = []))
  /\ links (snd (Header_init ext sw sr w)) = links w.
Proof.
  unfold Header_init, _get_wiki_content, bind, call, catch_recoverable, ret.
  destruct (reddit_get_subreddit ext sw) as [[]|e0]; cbn [fst snd links log];
    [destruct (wiki_content_md ext sw _) as [content|e1]; cbn [fst snd links log];
     [destruct (startswith content $"!ignore") eqn:Es
     |destruct (RECOVERABLE_EXC e1) eqn:Er]|];
    cbn [negb fst snd links log]; repeat split; intros;
    repeat match goal with
           | H : _ \/ _ |- _ => destruct H
           | H : _ /\ _ |- _ => destruct H
           | H : Ok _ = Raise _ |- _ => discriminate H
           | H : Raise _ = Ok _ |- _ => discriminate H
           | H : Ok _ = Ok _ |- _ => injection H as H; subst
           | H : Raise _ = Raise _ |- _ => injection H as H; subst
           end;
    cbn [subreddit texts]; try congruence; auto using parse_quotes_texts.
Qed.

(** ** Headers and the run cycle of a [Snapshill] *)

(** X14: after [refresh_headers] the only header is the one for "all",
    and [_get_header] returns it for every subreddit; after [quit],
    [_get_header] raises KeyError. *)
Theorem headers_resolve_to_all (ext : external) (self self' : Snapshill)
        (w w' : world) :
  refresh_headers ext self w = (Ok self', w') ->
  exists all,
    headers self' = [($"all", all)]
    /\ fst (Header_init ext (settings_wiki self) $"all" w) = Ok all
    /\ (forall display_name, _get_header self' display_name = Ok all)
    /\ (forall display_name,
           _get_header (quit self') display_name
           = Raise (OtherError "KeyError: 'all'"))
    /\ _setup self' = _setup self.
Proof.
  unfold refresh_headers, bind, ret.
  destruct (Header_init ext (settings_wiki self) $"all" w) as [[all|e] w1];
    [|discriminate].
  intros [= <- <-]. exists all. cbn [headers _setup fst quit].
  split; [reflexivity|]. split; [reflexivity|]. split; [|split; reflexivity].
  intros display_name. unfold _get_header. cbn [headers dict_get].
  match goal with
  | |- context [str_eqb ?k $"all"] =>
      replace (str_eqb k $"all") with true by (symmetry; now apply str_eqb_eq)
  end.
  destruct (negb (Header_len all =? 0)); [reflexivity|].
  destruct (str_eqb _ (lower display_name)); reflexivity.
Qed.

Lemma headers_resolve_to_all_witness :
  exists all,
    headers (sample_refreshed) = [($"all", all)]
    /\ fst (Header_init ext_quotes (settings_wiki ready) $"all" empty_world) = Ok all
    /\ (forall display_name, _get_header sample_refreshed display_name = Ok all)
    /\ (forall display_name,
           _get_header (quit sample_refreshed) display_name
           = Raise (OtherError "KeyError: 'all'"))
    /\ _setup sample_refreshed = _setup ready.
Proof.
  apply (@headers_resolve_to_all ext_quotes ready sample_refreshed empty_world
           {| links := [];
              log := [EvGetSubreddit $"SnapshillBot";
                      EvWikiPage $"SnapshillBot" $"extxt/all"] |}).
  vm_compute. reflexivity.
Defined.

(** X15: [run] never writes to the [links] table and makes no request to
    an archive site, no submission and no comment; it returns normally
    exactly when the bot is set up and no submission was fetched; after
    [quit] it raises "Snapshiller not ready yet!". *)
Theorem run_never_archives (ext : external) (self : Snapshill) (w : world) :
  links (snd (run ext self w)) = links w
  /\ filter is_archival (log (snd (run ext self w))) = filter is_archival (log w)
  /\ (fst (run ext self w) = Ok tt <->
      _setup self = true /\ reddit_get_new ext (limit self) = Ok [])
  /\ fst (run ext (quit self) w) = Raise (PyException "Snapshiller not ready yet!").
Proof.
  unfold run, bind, call, raise. cbn [quit _setup negb fst].
  destruct (_setup self); cbn [negb fst snd links log].
  - destruct (reddit_get_new ext (limit self)) as [[|x rest]|e];
      cbn [for_each fst snd links log]; unfold bind, raise, ret;
      cbn [fst snd links log]; rewrite filter_app; cbn [filter is_archival];
      rewrite app_nil_r; repeat split; try discriminate; auto;
      intros [_ H]; discriminate H.
  - repeat split; try discriminate. intros [H _]. discriminate H.
Qed.

(** ** The link loop *)

Section LinkLoopFacts.

Variable Container : Type.

(** X16: the link loop never adds a container.  It returns, with
    [archives] and [finishedURLs] as they were, exactly when every anchor
    has an [href] whose normalised URL is skipped or already finished;
    otherwise it raises KeyError (an anchor without [href]) or NameError
    (the undefined ArchiveContainer). *)
Theorem link_loop_outcome (anchors : list Anchor) (arch : list Container)
        (fin : list str) :
  (collect_links anchors arch fin = Ok (arch, fin) <->
   Forall (fun a => exists h, href a = Some h
                              /\ (skip_url (fix_url h) = true
                                  \/ In (fix_url h) fin)) anchors)
  /\ (forall r, collect_links anchors arch fin = Ok r -> r = (arch, fin))
  /\ (forall e, collect_links anchors arch fin = Raise e ->
                e = OtherError "KeyError: 'href'"
                \/ e = NameError "ArchiveContainer").
Proof.
  induction anchors as [|a rest (IH1 & IH2 & IH3)].
  - cbn [collect_links]. repeat split.
    + constructor.
    + now intros r [= <-].
    + discriminate.
  - cbn [collect_links]. destruct (href a) as [h|] eqn:Eh.
    + cbv zeta. destruct (skip_url (fix_url h)) eqn:Es.
      * repeat split; auto.
        -- intros H. constructor; [eauto | now apply IH1].
        -- intros H. inversion H; subst. now apply IH1.
      * destruct (existsb (str_eqb (fix_url h)) fin) eqn:Ef.
        -- apply existsb_str_eqb in Ef. repeat split; auto.
           ++ intros H. constructor; [eauto | now apply IH1].
           ++ intros H. inversion H; subst. now apply IH1.
        -- repeat split; try discriminate.
           ++ intros H. inversion H as [|? ? (h' & Eh' & Hk) _]; subst.
              rewrite Eh in Eh'. injection Eh' as <-.
              destruct Hk as [Hk|Hk]; [congruence|].
              apply existsb_str_eqb in Hk. congruence.
           ++ intros e [= <-]. now right.
    + repeat split; try discriminate.
      * intros H. inversion H as [|? ? (h' & Eh' & _) _]; subst. congruence.
      * intros e [= <-]. now left.
Qed.

(** X17: anchors whose targets are all plain mentions add no container
    and no finished URL. *)
Theorem mentions_collect_nothing (anchors : list Anchor) (arch : list Container)
        (fin : list str) :
  Forall (fun a => exists h, href a = Some h
                             /\ matches PLAIN_SUBREDDIT_OR_USER h = true)
         anchors ->
  collect_links anchors arch fin = Ok (arch, fin).
Proof.
  induction 1 as [|a anchors (h & Eh & Ha) _ IH]; [reflexivity|].
  cbn [collect_links]. rewrite Eh. cbv zeta. now rewrite (plain_skipped _ Ha).
Qed.

End LinkLoopFacts.

Lemma mentions_collect_nothing_witness :
  collect_links [example_anchor "/r/test"; example_anchor "u/someone/"]
    ([] : list Link) []
  = Ok ([], []).
Proof.
  apply (@mentions_collect_nothing Link).
  repeat constructor; eexists; (split; [reflexivity | vm_compute; reflexivity]).
Defined.
